(** * Passenger: the spawn manager and the HTTP status extractor

    A shallow embedding of [ext/apache2/SpawnManager.h] and
    [ext/nginx/HttpStatusExtractor.h], with the properties of the
    supervisor design checked against it. *)

From Stdlib Require Import ZArith Ascii String Lia.
From stdpp Require Import base option list strings gmap.

Local Open Scope Z_scope.

(** ** Machine integers and [std::string] *)

Module Cxx.

(** [unsigned int] is 32 bits wide, [size_t] and [long] 64 bits (LP64). *)
Definition UINT_MODULUS : Z := 2 ^ 32.
Definition SIZE_MODULUS : Z := 2 ^ 64.
Definition INT_MAX : Z := 2 ^ 31 - 1.
Definition INT_MIN : Z := - 2 ^ 31.
Definition LONG_MAX : Z := 2 ^ 63 - 1.
Definition LONG_MIN : Z := - 2 ^ 63.

Definition wrap_uint (n : Z) : Z := n mod UINT_MODULUS.
Definition wrap_size (n : Z) : Z := n mod SIZE_MODULUS.

(** Conversion of a [long] to [int]: the low 32 bits, read as signed. *)
Definition wrap_int (n : Z) : Z :=
  (n - INT_MIN) mod UINT_MODULUS + INT_MIN.

(** [std::string::npos], the largest [size_t]. *)
Definition npos : Z := SIZE_MODULUS - 1.

Definition size (s : string) : Z := Z.of_nat (String.length s).

(** [s.find(pat, pos)]: index of the first occurrence of [pat] at or after
    [pos], or [npos]. *)
Definition find (s pat : string) (pos : Z) : Z :=
  if size s <? pos then npos
  else match String.index (Z.to_nat pos) pat s with
       | Some i => Z.of_nat i
       | None => npos
       end.

(** [s.substr(pos, n)]: raises [std::out_of_range] ([None]) when
    [pos > s.size()]; otherwise at most [n] characters from [pos] on. *)
Definition substr (s : string) (pos n : Z) : option string :=
  if size s <? pos then None
  else Some (String.substring (Z.to_nat pos)
               (Z.to_nat (Z.min n (size s - pos))) s).

(** [s[i]] for [i < s.size()]; [s[s.size()]] is the terminating NUL. *)
Definition at_index (s : string) (i : Z) : ascii :=
  default Ascii.zero (String.get (Z.to_nat i) s).

(** [s.c_str()] as the C library reads it: the characters before the
    first NUL. *)
Fixpoint c_str (s : string) : string :=
  match s with
  | EmptyString => EmptyString
  | String c s' =>
      if Ascii.eqb c Ascii.zero then EmptyString else String c (c_str s')
  end.

End Cxx.

(** ** [HttpStatusExtractor] *)

Module HttpStatusExtractor.

Definition CR : ascii := Ascii.ascii_of_nat 13.
Definition LF : ascii := Ascii.ascii_of_nat 10.
Definition CRLF : string := String CR (String LF EmptyString).

(** Common HTTP status codes and their messages, in the order of the
    source table. *)
Definition httpStatusCodes : list (string * string) :=
  [ ("100", "Continue");
    ("101", "Switching Protocols");
    ("200", "OK");
    ("201", "Created");
    ("202", "Accepted");
    ("203", "Non-Authoritative Information");
    ("204", "No Content");
    ("205", "Reset Content");
    ("206", "Partial Content");
    ("300", "Multiple Choices");
    ("301", "Moved Permanently");
    ("302", "Found");
    ("303", "See Other");
    ("304", "Not Modified");
    ("305", "Use Proxy");
    ("307", "Temporary Redirect");
    ("400", "Bad Request");
    ("401", "Unauthorized");
    ("402", "Payment Required");
    ("403", "Forbidden");
    ("404", "Not Found");
    ("405", "Method Not Allowed");
    ("406", "Not Acceptable");
    ("407", "Proxy Authentication Required");
    ("408", "Request Timeout");
    ("409", "Conflict");
    ("410", "Gone");
    ("411", "Length Required");
    ("412", "Precondition Failed");
    ("413", "Request Entity Too Large");
    ("414", "Request-URI Too Large");
    ("415", "Unsupported Media Type");
    ("416", "Requested Range Not Satisfiable");
    ("417", "Expectation Failed");
    ("500", "Internal Server Error");
    ("501", "Not Implemented");
    ("502", "Bad Gateway");
    ("503", "Service Unavailable");
    ("504", "Gateway Timeout");
    ("505", "HTTP Version Not Supported") ].

Definition httpStatusCodesMap : gmap string string :=
  list_to_map httpStatusCodes.

(** The private fields of the class. *)
Record t := mk {
  buffer : string;
  searchStart : Z;            (* unsigned int *)
  fullHeaderReceived : bool;
  statusLine : string
}.

(** How a member function call ends. [OutOfRange] is the exception of
    [std::string::substr]; [OutOfFuel] says that the scanning loop was cut
    off by the step bound of the model. *)
Inductive result (A : Type) :=
| Returns (a : A)
| OutOfRange
| OutOfFuel.
Arguments Returns {A} a.
Arguments OutOfRange {A}.
Arguments OutOfFuel {A}.

Definition statusHeaderName : string := "Status: ".
(** [sizeof(statusHeaderName) - 1] *)
Definition statusHeaderLen : Z := 8.

(** [statusLine = iter->first + " " + iter->second + "\r\n"] when the
    three-character code is in the table. *)
Definition canonicalStatusLine (line : string) (code : string) : string :=
  match httpStatusCodesMap !! code with
  | Some reason => code +:+ " " +:+ reason +:+ CRLF
  | None => line
  end.

(** [extractStatusLine] (HttpStatusExtractor.h, lines 114-157). The
    arithmetic on [start_pos] and [newline_pos] is that of [size_t]. *)
Definition extractStatusLine (s : t) : result (bool * t) :=
  let buf := buffer s in
  (* start_pos and, when it is not npos, newline_pos *)
  let '(start_pos, newline_pos) :=
    if (statusHeaderLen <? Cxx.size buf)
       && String.prefix statusHeaderName buf
    then (statusHeaderLen,
          Cxx.wrap_size (Cxx.find buf CRLF 0 + 2))
    else
      let p := Cxx.find buf (CRLF +:+ statusHeaderName) 0 in
      if p =? Cxx.npos then (p, 0)
      else
        let p' := Cxx.wrap_size (p + (2 + statusHeaderLen)) in
        (p', Cxx.wrap_size (Cxx.find buf CRLF p' + 2))
  in
  if start_pos =? Cxx.npos then Returns (false, s)
  else
    match Cxx.substr buf start_pos (Cxx.wrap_size (newline_pos - start_pos)) with
    | None => OutOfRange
    | Some line =>
        match Cxx.substr line 0 3 with
        | None => OutOfRange
        | Some code =>
            Returns (true,
                     mk (buffer s) (searchStart s) (fullHeaderReceived s)
                        (canonicalStatusLine line code))
        end
    end.

(** The constructor. *)
Definition init : t :=
  mk "" 0 false ("200 OK" +:+ CRLF).

(** The [for] loop of [feed], at most [fuel] tests of its condition. *)
Fixpoint feed_loop (fuel : nat) (s : t) : result (bool * t) :=
  match fuel with
  | O => OutOfFuel
  | S fuel' =>
      let buf := buffer s in
      let i := searchStart s in
      if (3 <=? Cxx.size buf) && (i <? Cxx.size buf - 3) then
        if Ascii.eqb (Cxx.at_index buf i) CR
           && Ascii.eqb (Cxx.at_index buf (Cxx.wrap_uint (i + 1))) LF
           && Ascii.eqb (Cxx.at_index buf (Cxx.wrap_uint (i + 2))) CR
           && Ascii.eqb (Cxx.at_index buf (Cxx.wrap_uint (i + 3))) LF
        then
          let s1 := mk buf i true (statusLine s) in
          match extractStatusLine s1 with
          | Returns (_, s2) => Returns (true, s2)
          | OutOfRange => OutOfRange
          | OutOfFuel => OutOfFuel
          end
        else
          feed_loop fuel'
            (mk buf (Cxx.wrap_uint (i + 1)) (fullHeaderReceived s)
                (statusLine s))
      else Returns (false, s)
  end.

(** [feed(data, size)] (lines 188-204), with [data] the [size] bytes that
    are passed. *)
Definition feed (fuel : nat) (s : t) (data : string) : result (bool * t) :=
  if fullHeaderReceived s then Returns (true, s)
  else
    feed_loop fuel
      (mk (buffer s +:+ data) (searchStart s) (fullHeaderReceived s)
          (statusLine s)).

Definition getStatusLine (s : t) : string := statusLine s.
Definition getBuffer (s : t) : string := buffer s.

End HttpStatusExtractor.

(** ** The C library's [atoi] *)

Module Libc.

Definition isspace (c : ascii) : bool :=
  let n := Z.of_nat (Ascii.nat_of_ascii c) in
  (n =? 32) || ((9 <=? n) && (n <=? 13)).

Definition digit (c : ascii) : option Z :=
  let n := Z.of_nat (Ascii.nat_of_ascii c) in
  if (48 <=? n) && (n <=? 57) then Some (n - 48) else None.

Fixpoint skip_spaces (s : string) : string :=
  match s with
  | String c s' => if isspace c then skip_spaces s' else s
  | EmptyString => s
  end.

(** The value of the longest prefix of digits, most significant first. *)
Fixpoint digits (acc : Z) (s : string) : Z :=
  match s with
  | String c s' =>
      match digit c with
      | Some d => digits (10 * acc + d) s'
      | None => acc
      end
  | EmptyString => acc
  end.

Definition clamp_long (n : Z) : Z :=
  Z.max Cxx.LONG_MIN (Z.min Cxx.LONG_MAX n).

(** [strtol(s, NULL, 10)]: white space, an optional sign, digits; the
    result saturates at the bounds of [long]. *)
Definition strtol (s : string) : Z :=
  match skip_spaces s with
  | String "-" s' => clamp_long (- digits 0 s')
  | String "+" s' => clamp_long (digits 0 s')
  | s' => clamp_long (digits 0 s')
  end.

(** [atoi(s)] is [(int) strtol(s, NULL, 10)] when the value is
    representable as an [int]; the C standard leaves the behaviour
    undefined when it is not ([None]). *)
Definition atoi (s : string) : option Z :=
  let v := strtol s in
  if (Cxx.INT_MIN <=? v) && (v <=? Cxx.INT_MAX) then Some v else None.

(** What the GNU C library on LP64 returns also where the standard is
    silent: the low 32 bits of the [long]. *)
Definition atoi_glibc (s : string) : Z := Cxx.wrap_int (strtol s).

(** The number that a string of decimal digits denotes; [None] when the
    string is empty or has another character. *)
Fixpoint numeral_from (acc : Z) (s : string) : option Z :=
  match s with
  | EmptyString => Some acc
  | String c s' =>
      match digit c with
      | Some d => numeral_from (10 * acc + d) s'
      | None => None
      end
  end.

Definition numeral (s : string) : option Z :=
  match s with
  | EmptyString => None
  | _ => numeral_from 0 s
  end.

End Libc.

(** ** Exceptions, the worker handle and the message channel *)

(** [SystemException] carries a message and an [errno] value, [IOException]
    a message; [RestartException] is the nested class of [SpawnManager] and
    holds the exception that made the restart fail. All three derive from
    [std::exception]. *)
Inductive exception :=
| SystemException (message : string) (code : Z)
| IOException (message : string)
| RestartException (m_subexception : exception).

(** [RestartException::getSubException]. *)
Definition getSubException (e : exception) : option exception :=
  match e with
  | RestartException sub => Some sub
  | _ => None
  end.

Module Application.

(** What [new Application(appRoot, pid, listenSocket)] stores. *)
Record t := mk {
  appRoot : string;
  pid : Z;                    (* pid_t *)
  listenSocket : Z            (* int *)
}.

End Application.

Module MessageChannel.

(** Modelled from the spec: [MessageChannel.h] is not among the sources.
    A channel is bound to the local endpoint of a socket pair, or empty. *)
Record t := mk { fd : option Z }.

(** Modelled from the spec: the default-constructed [MessageChannel] of a
    fresh [SpawnManager] is bound to no descriptor. *)
Definition unbound : t := mk None.

(** [MessageChannel(fd)] *)
Definition bind (d : Z) : t := mk (Some d).

End MessageChannel.

(** ** The process and its surroundings *)

Module Sys.

(** What the calls of one member function leave behind, in program order.
    Each event records the answer that the call got. *)
Inductive event :=
| Waitpid (pid : Z)
| Socketpair (r : Z + Z * Z)
| Fopen (path mode : string) (r : option Z)
| Fork (r : Z)
| Close (d : Z)
| Fclose (d : Z)
| Dup2 (old new : Z)
| Setenv (name value : string)
| Execlp (file : string) (argv : list string) (r : option Z)
| Fprintf (message : string)
| ChannelClose (d : Z)
| ChannelWrite (c : MessageChannel.t) (args : list string)
    (r : option exception)
| ChannelRead (c : MessageChannel.t) (r : exception + option (list string))
| ChannelReadFileDescriptor (c : MessageChannel.t) (r : exception + Z).

(** The part of the process outside the object: the descriptors that are
    open and the environment variables. *)
Record World := mkWorld {
  open_fds : gset Z;
  environ : gmap string string
}.

(** The answers of the operating system and of the spawn server to the
    calls of one member function:
    - [socketpair]: [inl errno] for [-1], else the two descriptors;
    - [fopen]: [None] for [NULL], else the descriptor of the stream;
    - [fork]: the value returned, with [errno] for [-1];
    - [sysconf(_SC_OPEN_MAX)];
    - [execlp]: [None] when the image is replaced, else [errno]
      and the text of [strerror];
    - [channel.write]: [None] when it returns, else what it throws;
    - [channel.read]: what it throws, or [Some args] for [true] and
      [None] for [false];
    - [channel.readFileDescriptor]: what it throws, or the descriptor;
    - [atoi] of a string whose value no [int] holds, where the C standard
      defines nothing: [None] when no more is known of the platform,
      else what its C library returns. *)
Record Env := mkEnv {
  socketpair_result : Z + Z * Z;
  fopen_result : option Z;
  fork_result : Z;
  fork_errno : Z;
  open_max : Z;
  execlp_result : option (Z * string);
  write_result : option exception;
  read_result : exception + option (list string);
  readFileDescriptor_result : exception + Z;
  atoi_overflow : string -> option Z
}.

Definition STDIN_FILENO : Z := 0.
Definition STDOUT_FILENO : Z := 1.
Definition STDERR_FILENO : Z := 2.

Definition LF : ascii := Ascii.ascii_of_nat 10.

End Sys.

(** ** [SpawnManager] *)

Module SpawnManager.

Import Sys.

(** The private fields of the class; the mutex, which only serialises the
    calls of [spawn], has no counterpart here. *)
Record t := mk {
  spawnServerCommand : string;
  logFile : string;
  environment : string;
  rubyCommand : string;
  channel : MessageChannel.t;
  pid : Z;                    (* pid_t; 0 when there is no spawn server *)
  serverNeedsRestart : bool
}.

Definition set_channel (c : MessageChannel.t) (s : t) : t :=
  mk (spawnServerCommand s) (logFile s) (environment s) (rubyCommand s)
     c (pid s) (serverNeedsRestart s).
Definition set_pid (p : Z) (s : t) : t :=
  mk (spawnServerCommand s) (logFile s) (environment s) (rubyCommand s)
     (channel s) p (serverNeedsRestart s).
Definition set_serverNeedsRestart (b : bool) (s : t) : t :=
  mk (spawnServerCommand s) (logFile s) (environment s) (rubyCommand s)
     (channel s) (pid s) b.

(** The object together with the rest of the process. *)
Record Proc := mkProc { this : t; world : World }.

(** How a call ends: it returns, it throws, it runs into undefined
    behaviour, or (in the forked child) the process image is replaced or
    the process exits. *)
Inductive outcome (A : Type) :=
| Returned (a : A)
| Threw (e : exception)
| Undefined
| ImageReplaced
| Exited (status : Z).
Arguments Returned {A} a.
Arguments Threw {A} e.
Arguments Undefined {A}.
Arguments ImageReplaced {A}.
Arguments Exited {A} status.

Record run (A : Type) := mkRun {
  result : outcome A;
  final : Proc;
  events : list event
}.
Arguments mkRun {A} result final events.
Arguments result {A} r.
Arguments final {A} r.
Arguments events {A} r.

(** Computations of the process: state passing, with the exits of
    [outcome] and a log of the calls made. *)
Definition M (A : Type) : Type := Proc -> run A.

Definition ret {A} (a : A) : M A := fun p => mkRun (Returned a) p [].

Definition bind {A B} (m : M A) (k : A -> M B) : M B :=
  fun p =>
    match m p with
    | mkRun (Returned a) p1 evs1 =>
        match k a p1 with
        | mkRun o p2 evs2 => mkRun o p2 (evs1 ++ evs2)
        end
    | mkRun (Threw e) p1 evs1 => mkRun (Threw e) p1 evs1
    | mkRun Undefined p1 evs1 => mkRun Undefined p1 evs1
    | mkRun ImageReplaced p1 evs1 => mkRun ImageReplaced p1 evs1
    | mkRun (Exited n) p1 evs1 => mkRun (Exited n) p1 evs1
    end.

Declare Scope proc_scope.
Delimit Scope proc_scope with proc.
Notation "'let*' x := m 'in' k" := (bind m (fun x => k))
  (at level 10, x name, m at level 100, k at level 200) : proc_scope.
Notation "m ;; k" := (bind m (fun _ => k))
  (at level 100, k at level 200, right associativity) : proc_scope.
Local Open Scope proc_scope.

Definition throw {A} (e : exception) : M A := fun p => mkRun (Threw e) p [].
Definition undefined {A} : M A := fun p => mkRun Undefined p [].

(** [try { m } catch (const exception &e) { h e }] *)
Definition try_catch {A} (m : M A) (h : exception -> M A) : M A :=
  fun p =>
    match m p with
    | mkRun (Threw e) p1 evs1 =>
        match h e p1 with
        | mkRun o p2 evs2 => mkRun o p2 (evs1 ++ evs2)
        end
    | r => r
    end.

Definition get : M t := fun p => mkRun (Returned (this p)) p [].
Definition modify (f : t -> t) : M unit :=
  fun p => mkRun (Returned tt) (mkProc (f (this p)) (world p)) [].
Definition modify_world (f : World -> World) : M unit :=
  fun p => mkRun (Returned tt) (mkProc (this p) (f (world p))) [].
Definition tell (e : event) : M unit := fun p => mkRun (Returned tt) p [e].

Definition when (b : bool) (m : M unit) : M unit := if b then m else ret tt.

Definition opened (d : Z) (w : World) : World :=
  mkWorld ({[ d ]} ∪ open_fds w) (environ w).
Definition closed (d : Z) (w : World) : World :=
  mkWorld (open_fds w ∖ {[ d ]}) (environ w).

(** *** The calls into the operating system *)

Section Calls.

Variable env : Env.

Definition close (d : Z) : M unit :=
  modify_world (closed d) ;; tell (Close d).

(** [fclose(stream)]; [fclose(NULL)] is undefined. *)
Definition fclose (stream : option Z) : M unit :=
  match stream with
  | Some d => modify_world (closed d) ;; tell (Fclose d)
  | None => undefined
  end.

(** [waitpid(pid, NULL, 0)] blocks until the child has ended; the value it
    returns is not looked at. A wait that never ends has no run here. *)
Definition waitpid (p : Z) : M unit := tell (Waitpid p).

Definition socketpair : M (Z + Z * Z) :=
  let r := socketpair_result env in
  match r with
  | inl _ => ret tt
  | inr (d0, d1) => modify_world (fun w => opened d1 (opened d0 w))
  end ;;
  tell (Socketpair r) ;;
  ret r.

Definition fopen (path mode : string) : M (option Z) :=
  let r := fopen_result env in
  match r with
  | None => ret tt
  | Some d => modify_world (opened d)
  end ;;
  tell (Fopen path mode r) ;;
  ret r.

Definition fork : M Z :=
  tell (Fork (fork_result env)) ;; ret (fork_result env).

(** [dup2(old, new)]: [new] refers to what [old] refers to; nothing
    happens when [old] is not open. *)
Definition dup2 (old new : Z) : M unit :=
  modify_world (fun w =>
    if bool_decide (old ∈ open_fds w) then opened new w else w) ;;
  tell (Dup2 old new).

Definition setenv (name value : string) : M unit :=
  modify_world (fun w =>
    mkWorld (open_fds w) (<[ name := value ]> (environ w))) ;;
  tell (Setenv name value).

(** [execlp(file, argv...)] returns only when it fails. *)
Definition execlp (file : string) (argv : list string)
  : M (Z * string) :=
  tell (Execlp file argv (fst <$> execlp_result env)) ;;
  match execlp_result env with
  | None => fun p => mkRun ImageReplaced p []
  | Some e => ret e
  end.

Definition _exit {A} (status : Z) : M A :=
  fun p => mkRun (Exited status) p [].

(** [atoi(s)]: the value that the C standard defines; where it defines
    none, the run goes on with what the C library of the platform
    returns when the surroundings tell, and is undefined when they do
    not. *)
Definition atoi (s : string) : M Z :=
  match Libc.atoi s with
  | Some v => ret v
  | None =>
      match atoi_overflow env s with
      | Some v => ret v
      | None => undefined
      end
  end.

(** *** The message channel *)

(** Modelled from the spec: [MessageChannel::close] releases the local
    endpoint and is idempotent; the channel is empty afterwards. *)
Definition channel_close : M unit :=
  let* s := get in
  match MessageChannel.fd (channel s) with
  | Some d =>
      modify_world (closed d) ;;
      modify (set_channel MessageChannel.unbound) ;;
      tell (ChannelClose d)
  | None => ret tt
  end.

(** [channel.write(...)], [channel.read(args)] and
    [channel.readFileDescriptor()] talk to the spawn server: they end as
    the surroundings say, and leave the object alone. A descriptor that is
    received is open in this process from then on. *)
Definition channel_write (args : list string) : M unit :=
  let* s := get in
  tell (ChannelWrite (channel s) args (write_result env)) ;;
  match write_result env with
  | None => ret tt
  | Some e => throw e
  end.

Definition channel_read : M (option (list string)) :=
  let* s := get in
  tell (ChannelRead (channel s) (read_result env)) ;;
  match read_result env with
  | inr r => ret r
  | inl e => throw e
  end.

Definition channel_readFileDescriptor : M Z :=
  let* s := get in
  tell (ChannelReadFileDescriptor (channel s)
          (readFileDescriptor_result env)) ;;
  match readFileDescriptor_result env with
  | inr d => modify_world (opened d) ;; ret d
  | inl e => throw e
  end.

(** *** [restartServer] *)

Definition nonempty (s : string) : bool :=
  negb (String.eqb s "").

Definition is_std (i : Z) : bool :=
  (i =? STDIN_FILENO) || (i =? STDOUT_FILENO) || (i =? STDERR_FILENO).

(** [for (long i = n - 1; i >= 0; i--) if (i is not 0, 1 or 2) close(i);] *)
Fixpoint close_below (n : nat) : M unit :=
  match n with
  | O => ret tt
  | S i =>
      when (negb (is_std (Z.of_nat i))) (close (Z.of_nat i)) ;;
      close_below i
  end.

(** The branch [pid == 0] of [restartServer]: the forked child. The
    strings reach [setenv], [execlp] and [fprintf] through [c_str()]. *)
Definition restartServer_child (fds0 fds1 : Z) (logFileHandle : option Z)
  : M unit :=
  let* s := get in
  when (nonempty (logFile s))
    (match logFileHandle with
     | Some d => dup2 d STDERR_FILENO
     | None => undefined
     end ;;
     fclose logFileHandle) ;;
  dup2 STDERR_FILENO STDOUT_FILENO ;;
  when (nonempty (environment s))
    (setenv "RAILS_ENV" (Cxx.c_str (environment s))) ;;
  dup2 fds1 STDIN_FILENO ;;
  close fds0 ;;
  close fds1 ;;
  close_below (Z.to_nat (open_max env)) ;;
  let* e := execlp (Cxx.c_str (rubyCommand s))
              [Cxx.c_str (rubyCommand s);
               Cxx.c_str (spawnServerCommand s)] in
  tell (Fprintf ("Unable to run " +:+ Cxx.c_str (rubyCommand s) +:+ ": "
                 +:+ snd e +:+ String LF "")) ;;
  _exit 1.

(** [restartServer] (SpawnManager.h, lines 74-142). *)
Definition restartServer : M unit :=
  let* s := get in
  when (negb (pid s =? 0))
    (channel_close ;;
     waitpid (pid s) ;;
     modify (set_pid 0)) ;;
  modify (set_serverNeedsRestart true) ;;
  let* sp := socketpair in
  match sp with
  | inl errno => throw (SystemException "Cannot create a Unix socket" errno)
  | inr (fds0, fds1) =>
      let* logFileHandle :=
        if nonempty (logFile s) then
          let* h := fopen (Cxx.c_str (logFile s)) "a" in
          match h with
          | None =>
              throw (IOException ("Cannot open log file '" +:+ logFile s
                                  +:+ "' for writing."))
          | Some _ => ret h
          end
        else ret None in
      let* p := fork in
      modify (set_pid p) ;;
      if p =? 0 then
        restartServer_child fds0 fds1 logFileHandle
      else if p =? -1 then
        close fds0 ;;
        close fds1 ;;
        match logFileHandle with
        | Some _ => fclose logFileHandle
        | None => ret tt
        end ;;
        modify (set_pid 0) ;;
        throw (SystemException "Unable to fork a process" (fork_errno env))
      else
        close fds1 ;;
        when (nonempty (logFile s)) (fclose logFileHandle) ;;
        modify (set_channel (MessageChannel.bind fds0)) ;;
        modify (set_serverNeedsRestart false)
  end.

(** *** [spawn] *)

(** The first [try] block of [spawn] (lines 229-244), with its two
    handlers; the trace messages of [P_TRACE] are left out. *)
Definition spawn_restart : M unit :=
  let* s := get in
  when (serverNeedsRestart s)
    (try_catch restartServer (fun e =>
       match e with
       | IOException _ => throw (RestartException e)
       | SystemException _ _ => throw (RestartException e)
       | RestartException _ => throw e
       end)).

(** The body of the second [try] block (lines 247-253). The request is
    written from [c_str()] of the three arguments. [args.front()] of an
    empty vector is undefined; [atoi] reads [c_str()] of the first
    field. *)
Definition spawn_exchange (appRoot user group : string)
  : M Application.t :=
  channel_write ["spawn_application"; Cxx.c_str appRoot; Cxx.c_str user;
                 Cxx.c_str group] ;;
  let* r := channel_read in
  match r with
  | None => throw (IOException "The spawn server has exited unexpectedly.")
  | Some args =>
      match args with
      | [] => undefined
      | front :: _ =>
          let* pid := atoi (Cxx.c_str front) in
          let* listenSocket := channel_readFileDescriptor in
          ret (Application.mk appRoot pid listenSocket)
      end
  end.

(** [spawn] (lines 225-259); the handler of the second [try] block sets
    [serverNeedsRestart] and throws the exception again. *)
Definition spawn (appRoot user group : string) : M Application.t :=
  spawn_restart ;;
  try_catch (spawn_exchange appRoot user group) (fun e =>
    modify (set_serverNeedsRestart true) ;;
    throw e).

(** *** Constructor and destructor *)

(** The constructor (lines 187-197) leaves [serverNeedsRestart] as it
    finds it, and [restartServer] writes the field before it reads it:
    [uninit] is the value that the memory happens to hold. *)
Definition construct (spawnServerCommand logFile environment
                      rubyCommand : string) (uninit : bool) (w : World)
  : run unit :=
  restartServer
    (mkProc (mk spawnServerCommand logFile environment rubyCommand
                MessageChannel.unbound 0 uninit) w).

(** [~SpawnManager] (lines 199-204). *)
Definition destroy : M unit :=
  let* s := get in
  when (negb (pid s =? 0))
    (channel_close ;;
     waitpid (pid s)).

End Calls.

(** *** Predicates on objects and on logs *)

(** There is no spawn server exactly when the channel is empty. *)
Definition invariant (s : t) : Prop :=
  pid s = 0 <-> MessageChannel.fd (channel s) = None.

(** The calls of the request/response exchange with the spawn server. *)
Definition is_exchange (e : event) : bool :=
  match e with
  | ChannelWrite _ _ _ | ChannelRead _ _
  | ChannelReadFileDescriptor _ _ => true
  | _ => false
  end.

Definition is_write (e : event) : bool :=
  match e with
  | ChannelWrite _ _ _ => true
  | _ => false
  end.

Definition is_read (e : event) : bool :=
  match e with
  | ChannelRead _ _ => true
  | _ => false
  end.

Definition is_readFileDescriptor (e : event) : bool :=
  match e with
  | ChannelReadFileDescriptor _ _ => true
  | _ => false
  end.

(** How a failed exchange leaves [spawn]: the error [e] reaches the
    caller, the object is marked for a restart, and no step of the
    exchange was made a second time: the request was written once, and
    the response and the descriptor were asked for once at most. *)
Definition exchange_failed {A} (r : run A) (e : exception) : Prop :=
  result r = Threw e
  /\ serverNeedsRestart (this (final r)) = true
  /\ length (List.filter is_write (events r)) = 1%nat
  /\ (length (List.filter is_read (events r)) <= 1)%nat
  /\ (length (List.filter is_readFileDescriptor (events r)) <= 1)%nat.

(** The calls that the forked child makes. *)
Definition child_event (e : event) : Prop :=
  match e with
  | Dup2 _ _ | Fclose _ | Close _ | Setenv _ _ | Execlp _ _ _
  | Fprintf _ => True
  | _ => False
  end.

(** The errors of [restartServer]: a failed set-up ([SystemException])
    or a log file that cannot be opened ([IOException]). *)
Definition is_setup_or_io (e : exception) : Prop :=
  match e with
  | SystemException _ _ | IOException _ => True
  | RestartException _ => False
  end.

(** The call does not come back to its caller in this process. *)
Definition no_return {A} (o : outcome A) : Prop :=
  match o with
  | Returned _ | Threw _ => False
  | _ => True
  end.

End SpawnManager.

(** ** Sample surroundings and objects *)

Module Examples.

Import Sys SpawnManager.

(** A process with the three standard streams open. *)
Definition world0 : World := mkWorld {[ 0; 1; 2 ]} ∅.

(** A spawn server with pid 1234 behind descriptor 5. *)
Definition world_running : World := mkWorld {[ 0; 1; 2; 5 ]} ∅.

Definition log_path : string := "/var/log/passenger.log".

(** An object whose spawn server runs. *)
Definition running : Proc :=
  mkProc (mk "spawn-server" log_path "production" "ruby"
             (MessageChannel.bind 5) 1234 false)
         world_running.

(** An object without a spawn server, which a restart has to make. *)
Definition stopped : Proc :=
  mkProc (mk "spawn-server" log_path "production" "ruby"
             MessageChannel.unbound 0 true)
         world0.

(** A platform of which no more is known than the C standard says. *)
Definition by_the_standard : string -> option Z := fun _ => None.


(** Every call succeeds; the spawn server answers with pid 4242. *)
Definition env_ok : Env :=
  mkEnv (inr (5, 6)) (Some 7) 1234 0 16 None
        None (inr (Some ["4242"])) (inr 9)
        by_the_standard.

(** The log file cannot be opened. *)
Definition env_log_unwritable : Env :=
  mkEnv (inr (5, 6)) None 1234 0 16 None
        None (inr (Some ["4242"])) (inr 9)
        by_the_standard.

(** [fork] fails with [ENOMEM]. *)
Definition env_fork_fails : Env :=
  mkEnv (inr (5, 6)) (Some 7) (-1) 12 16 None
        None (inr (Some ["4242"])) (inr 9)
        by_the_standard.

(** The request cannot be written ([EPIPE]). *)
Definition env_write_fails : Env :=
  mkEnv (inr (5, 6)) (Some 7) 1234 0 16 None
        (Some (SystemException "write() failed" 32))
        (inr (Some ["4242"])) (inr 9)
        by_the_standard.

(** The spawn server has closed its end of the channel. *)
Definition env_server_gone : Env :=
  mkEnv (inr (5, 6)) (Some 7) 1234 0 16 None
        None (inr None) (inr 9)
        by_the_standard.

(** The first field of the response is not a number. *)
Definition env_bad_pid : Env :=
  mkEnv (inr (5, 6)) (Some 7) 1234 0 16 None
        None (inr (Some ["abc"])) (inr 9)
        by_the_standard.

(** The first field of the response has no digit at all. *)
Definition env_garbled_pid : Env :=
  mkEnv (inr (5, 6)) (Some 7) 1234 0 16 None
        None (inr (Some ["pid?"; "x"])) (inr 9)
        by_the_standard.

(** The passed descriptor does not arrive ([ECONNRESET]). *)
Definition env_no_descriptor : Env :=
  mkEnv (inr (5, 6)) (Some 7) 1234 0 16 None
        None (inr (Some ["abc"]))
        (inl (SystemException "Cannot read file descriptor" 104))
        by_the_standard.


Definition spawn_request : list string :=
  ["spawn_application"; "/app"; ""; ""].

(** A response to the extractor, and the extractor after it. *)
Definition response404 : string :=
  "Status: 404 Not Found" +:+ HttpStatusExtractor.CRLF
  +:+ "Content-Type: text/html" +:+ HttpStatusExtractor.CRLF
  +:+ HttpStatusExtractor.CRLF +:+ "<html>".

Definition after404 : HttpStatusExtractor.t :=
  HttpStatusExtractor.mk response404 46 true
    ("404 Not Found" +:+ HttpStatusExtractor.CRLF).

End Examples.

(** ** What the scan of [feed] looks for *)

Module HeaderScan.

Import HttpStatusExtractor.

(** The four bytes CR LF CR LF stand at index [i] of [buf]. *)
Definition terminator_at (buf : string) (i : Z) : bool :=
  Ascii.eqb (Cxx.at_index buf i) CR
  && Ascii.eqb (Cxx.at_index buf (i + 1)) LF
  && Ascii.eqb (Cxx.at_index buf (i + 2)) CR
  && Ascii.eqb (Cxx.at_index buf (i + 3)) LF.

(** [buf] holds the end of a header somewhere. *)
Definition has_terminator (buf : string) : Prop :=
  exists i, 0 <= i /\ i + 3 < Cxx.size buf /\ terminator_at buf i = true.

(** What [searchStart] stands for between two calls of [feed]: no header
    ends before it, and it trails the end of the buffer by three bytes at
    least, unless it still is 0. *)
Definition scanned (s : t) : Prop :=
  0 <= searchStart s
  /\ (searchStart s = 0 \/ searchStart s + 3 <= Cxx.size (buffer s))
  /\ forall i, 0 <= i < searchStart s -> terminator_at (buffer s) i = false.

(** The chunks of data, one after the other. *)
Fixpoint concat_chunks (chunks : list string) : string :=
  match chunks with
  | [] => ""
  | c :: cs => c +:+ concat_chunks cs
  end.

(** [fed chunks s]: a new extractor was fed [chunks], one call of [feed]
    each, every call returned [false], and [s] is the extractor now. *)
Inductive fed : list string -> t -> Prop :=
| fed_nil : fed [] init
| fed_snoc chunks s fuel data s' :
    fed chunks s ->
    feed fuel s data = Returns (false, s') ->
    fed (chunks ++ [data]) s'.

(** No CR LF in [s]. *)
Fixpoint no_crlf (s : string) : bool :=
  match s with
  | String c s' =>
      negb (Ascii.eqb c CR
            && match s' with
               | String c' _ => Ascii.eqb c' LF
               | EmptyString => false
               end)
      && no_crlf s'
  | EmptyString => true
  end.

End HeaderScan.

(** ** What the object is configured with, and how the child ends *)

Module Configuration.

Import SpawnManager.

(** The four strings that the constructor stores. *)
Definition config (s : t) : string * string * string * string :=
  (spawnServerCommand s, logFile s, environment s, rubyCommand s).

(** How the forked child ends, by what [execlp] does. *)
Definition child_end (env : Sys.Env) : outcome unit :=
  match Sys.execlp_result env with
  | None => ImageReplaced
  | Some _ => Exited 1
  end.

(** The descriptors that the loop over [sysconf(_SC_OPEN_MAX)] leaves
    alone: the three standard streams, and numbers outside its range. *)
Definition kept_by_child (env : Sys.Env) (d : Z) : Prop :=
  is_std d = true \/ d < 0 \/ Z.of_nat (Z.to_nat (Sys.open_max env)) <= d.

End Configuration.

(** ** More sample surroundings, objects and responses *)

Module MoreExamples.

Import SpawnManager.

(** The run is in the forked child, whose [execlp] fails with [ENOENT]. *)
Definition env_child : Sys.Env :=
  Sys.mkEnv (inr (5, 6)) (Some 7) 0 0 16
            (Some (2, "No such file or directory"))
            None (inr (Some ["4242"])) (inr 9)
            Examples.by_the_standard.

(** The spawn server answers with a message that has no field. *)
Definition env_empty_response : Sys.Env :=
  Sys.mkEnv (inr (5, 6)) (Some 7) 1234 0 16 None
            None (inr (Some [])) (inr 9)
            Examples.by_the_standard.

(** The first field of the response is the numeral of [2 ^ 32 + 1], and
    no more is known of [atoi] than the C standard says. *)
Definition env_overflowing_pid : Sys.Env :=
  Sys.mkEnv (inr (5, 6)) (Some 7) 1234 0 16 None
            None (inr (Some ["4294967297"])) (inr 9)
            Examples.by_the_standard.

(** An object whose exchange has failed: the spawn server is still
    tracked, and the next call is to restart it. *)
Definition suspect : Proc :=
  mkProc (mk "spawn-server" Examples.log_path "production" "ruby"
             (MessageChannel.bind 5) 1234 true)
         Examples.world_running.

(** A header whose end is cut in two by the border of two chunks. *)
Definition chunk_head : string :=
  "X: y" +:+ HttpStatusExtractor.CRLF
  +:+ String HttpStatusExtractor.CR "".

Definition chunk_tail : string := String HttpStatusExtractor.LF "body".

Definition after_head : HttpStatusExtractor.t :=
  HttpStatusExtractor.mk chunk_head 4 false
    ("200 OK" +:+ HttpStatusExtractor.CRLF).

Definition after_tail : HttpStatusExtractor.t :=
  HttpStatusExtractor.mk (chunk_head +:+ chunk_tail) 4 true
    ("200 OK" +:+ HttpStatusExtractor.CRLF).

(** A response with a status that the table does not have. *)
Definition response999 : string :=
  "Status: 999 Teapot" +:+ HttpStatusExtractor.CRLF
  +:+ HttpStatusExtractor.CRLF.

Definition after999 : HttpStatusExtractor.t :=
  HttpStatusExtractor.mk response999 18 true
    ("999 Teapot" +:+ HttpStatusExtractor.CRLF).

End MoreExamples.

(** * Properties *)

Module LibcProofs.

Import Libc.






Lemma wrap_int_small v :
  Cxx.INT_MIN <= v <= Cxx.INT_MAX -> Cxx.wrap_int v = v.
Proof.
  unfold Cxx.wrap_int, Cxx.INT_MIN, Cxx.INT_MAX, Cxx.UINT_MODULUS.
  intros H. rewrite Z.mod_small by lia. lia.
Qed.





(** Where [atoi] is defined, its value is an [int], and the GNU C library
    returns it. *)
Lemma atoi_range s v : atoi s = Some v -> Cxx.INT_MIN <= v <= Cxx.INT_MAX.
Proof.
  unfold atoi.
  destruct (Z.leb_spec Cxx.INT_MIN (strtol s));
    destruct (Z.leb_spec (strtol s) Cxx.INT_MAX);
    cbn [andb]; intros [= <-]; lia.
Qed.

Lemma atoi_glibc_agrees s v : atoi s = Some v -> atoi_glibc s = v.
Proof.
  intros H. pose proof (atoi_range _ _ H) as Hr.
  unfold atoi in H. destruct (_ && _); [|discriminate].
  injection H as <-. unfold atoi_glibc. apply wrap_int_small, Hr.
Qed.

End LibcProofs.

Module ExtractorProofs.

Import HttpStatusExtractor Examples.

(** [extractStatusLine] writes [statusLine] only. *)
Lemma extractStatusLine_frame s b s' :
  extractStatusLine s = Returns (b, s') ->
  buffer s' = buffer s
  /\ searchStart s' = searchStart s
  /\ fullHeaderReceived s' = fullHeaderReceived s.
Proof.
  unfold extractStatusLine.
  destruct (_ && _).
  - destruct (_ =? _); [intros [= <- <-]; auto|].
    destruct (Cxx.substr _ _ _); [|discriminate].
    destruct (Cxx.substr _ _ _); [|discriminate].
    intros [= <- <-]; auto.
  - destruct (Cxx.find _ _ _ =? _).
    + destruct (_ =? _); [intros [= <- <-]; auto|].
      destruct (Cxx.substr _ _ _); [|discriminate].
      destruct (Cxx.substr _ _ _); [|discriminate].
      intros [= <- <-]; auto.
    + destruct (_ =? _); [intros [= <- <-]; auto|].
      destruct (Cxx.substr _ _ _); [|discriminate].
      destruct (Cxx.substr _ _ _); [|discriminate].
      intros [= <- <-]; auto.
Qed.

Lemma extractStatusLine_fuel s : extractStatusLine s <> OutOfFuel.
Proof.
  unfold extractStatusLine.
  destruct (_ && _); [|destruct (Cxx.find _ _ _ =? _)];
    (destruct (_ =? _); [discriminate|]);
    (destruct (Cxx.substr _ _ _); [|discriminate]);
    (destruct (Cxx.substr _ _ _); discriminate).
Qed.

(** When the loop of [feed] says [true], the header has been seen. *)
Lemma feed_loop_true fuel : forall s s',
  feed_loop fuel s = Returns (true, s') -> fullHeaderReceived s' = true.
Proof.
  induction fuel as [|fuel IH]; intros s s'; cbn [feed_loop]; [discriminate|].
  destruct (_ && _); [|discriminate].
  destruct (_ && _).
  - destruct (extractStatusLine _) as [[b s2]| |] eqn:He; try discriminate.
    intros [= <-]. apply extractStatusLine_frame in He as (_ & _ & ->).
    reflexivity.
  - apply IH.
Qed.

Lemma feed_true fuel s data s' :
  feed fuel s data = Returns (true, s') -> fullHeaderReceived s' = true.
Proof.
  unfold feed. destruct (fullHeaderReceived s) eqn:Hs.
  - intros [= <-]. exact Hs.
  - apply feed_loop_true.
Qed.

(** The loop comes to an end when the buffer is shorter than 4 GiB:
    [searchStart] then moves up without wrapping around. *)
Lemma feed_loop_returns fuel : forall s,
  0 <= searchStart s ->
  Cxx.size (buffer s) <= Cxx.UINT_MODULUS ->
  (Z.to_nat (Cxx.size (buffer s) - searchStart s) < fuel)%nat ->
  feed_loop fuel s <> OutOfFuel.
Proof.
  induction fuel as [|fuel IH]; intros s H0 Hsize Hfuel; [lia|].
  cbn [feed_loop].
  destruct (3 <=? _) eqn:H3; cbn [andb]; [|discriminate].
  destruct (searchStart s <? _) eqn:Hlt; [|discriminate].
  apply Z.ltb_lt in Hlt.
  destruct (_ && _).
  - pose proof (extractStatusLine_fuel
                  (mk (buffer s) (searchStart s) true (statusLine s))) as Hf.
    destruct (extractStatusLine _) as [[b s2]| |]; congruence.
  - assert (Hw : Cxx.wrap_uint (searchStart s + 1) = searchStart s + 1).
    { unfold Cxx.wrap_uint. apply Z.mod_small. lia. }
    apply IH; cbn [buffer searchStart]; rewrite ?Hw; lia.
Qed.

Lemma feed_returns s data :
  0 <= searchStart s ->
  Cxx.size (buffer s +:+ data) <= Cxx.UINT_MODULUS ->
  feed (S (String.length (buffer s +:+ data))) s data <> OutOfFuel.
Proof.
  intros H0 Hsize. unfold feed.
  destruct (fullHeaderReceived s); [discriminate|].
  apply feed_loop_returns; cbn [buffer searchStart]; try assumption.
  unfold Cxx.size. lia.
Qed.

(** C10: once [feed] has returned [true], every later call returns [true]
    as well, whatever is fed and with any step bound, and the object is
    left as it was: [getBuffer] and [getStatusLine] give what they gave
    before, so the data of the later calls is dropped, not appended. *)
Theorem feed_after_header fuel s data s' :
  feed fuel s data = Returns (true, s') ->
  forall fuel' data',
    exists s'',
      feed fuel' s' data' = Returns (true, s'')
      /\ getBuffer s'' = getBuffer s'
      /\ getStatusLine s'' = getStatusLine s'
      /\ s'' = s'.
Proof.
  intros H fuel' data'. apply feed_true in H.
  exists s'. unfold feed. rewrite H. auto.
Qed.

Lemma feed_after_header_witness :
  feed 64 init response404 = Returns (true, after404)
  /\ exists s'',
       feed 0 after404 "</html>" = Returns (true, s'')
       /\ getBuffer s'' = getBuffer after404
       /\ getStatusLine s'' = getStatusLine after404
       /\ s'' = after404.
Proof.
  split; [vm_compute; reflexivity|].
  apply (feed_after_header 64 init response404 after404).
  vm_compute; reflexivity.
Defined.

End ExtractorProofs.

Module SpawnProofs.

Import Sys SpawnManager Examples.

(** *** Descriptor tables *)

Lemma closed_not_elem d w : d ∉ open_fds (closed d w).
Proof.
  unfold closed; cbn [open_fds].
  rewrite elem_of_difference, elem_of_singleton. tauto.
Qed.

Lemma closed_not_elem_mono d d' w :
  d ∉ open_fds w -> d ∉ open_fds (closed d' w).
Proof.
  unfold closed; cbn [open_fds]. rewrite elem_of_difference. tauto.
Qed.

Lemma opened_elem d w : d ∈ open_fds (opened d w).
Proof.
  unfold opened; cbn [open_fds].
  rewrite elem_of_union, elem_of_singleton. tauto.
Qed.

Lemma opened_elem_mono d d' w :
  d ∈ open_fds w -> d ∈ open_fds (opened d' w).
Proof.
  unfold opened; cbn [open_fds]. rewrite elem_of_union. tauto.
Qed.

Create HintDb fds.
#[local] Hint Resolve closed_not_elem closed_not_elem_mono
  opened_elem opened_elem_mono : fds.

(** *** Running the model *)

(** Unfolds the calls of the process and the fields of its records,
    and leaves [close_below] and [restartServer_child] alone. *)
Ltac unfold_proc :=
  cbv beta iota zeta delta
    [restartServer spawn_exchange destroy construct
     bind ret throw undefined try_catch get modify
     modify_world tell when
     close fclose waitpid socketpair fopen fork dup2 setenv execlp _exit
     channel_close channel_write channel_read channel_readFileDescriptor
     atoi result final events this world negb
     set_pid set_channel set_serverNeedsRestart
     pid channel serverNeedsRestart logFile environment rubyCommand
     spawnServerCommand
     socketpair_result fopen_result fork_result fork_errno open_max
     execlp_result write_result read_result readFileDescriptor_result
     atoi_overflow].

Lemma close_below_run n p :
  exists w evs,
    close_below n p = mkRun (Returned tt) (mkProc (this p) w) evs
    /\ Forall child_event evs.
Proof.
  revert p; induction n as [|i IH]; intros [s w].
  - exists w, []. split; [reflexivity | constructor].
  - cbn [close_below]. unfold bind at 1.
    destruct (is_std (Z.of_nat i)); cbn [negb when].
    + cbn [ret]. destruct (IH (mkProc s w)) as (w' & evs & -> & Hevs).
      exists w', evs. split; [reflexivity | exact Hevs].
    + unfold_proc.
      destruct (IH (mkProc s (closed (Z.of_nat i) w)))
        as (w' & evs & -> & Hevs).
      cbn [this]. exists w', (Close (Z.of_nat i) :: evs).
      split; [reflexivity | constructor; [exact I | exact Hevs]].
Qed.

(** Case analysis on whatever the run is stuck on. *)
Ltac split_stuck :=
  match goal with
  | |- context [match ?x with _ => _ end] =>
      lazymatch x with
      | context [match _ with _ => _ end] => fail
      | _ => destruct x eqn:?
      end
  end.

Ltac solve_Forall :=
  cbn [app];
  repeat first
    [ assumption | exact I | apply Forall_nil_2
    | apply Forall_cons_2 | apply Forall_app_2 ].

(** The forked child never comes back, and leaves the object alone. *)
Lemma restartServer_child_run env fds0 fds1 h p :
  exists o w evs,
    restartServer_child env fds0 fds1 h p = mkRun o (mkProc (this p) w) evs
    /\ no_return o /\ Forall child_event evs.
Proof.
  destruct p as [s w]. destruct env as [sp fo fr fe om ex wr rd rfd ao].
  unfold restartServer_child. unfold_proc.
  repeat first
    [ match goal with
      | |- context [close_below ?n ?p] =>
          let w' := fresh "w" in
          let evs := fresh "evs" in
          let H := fresh "Hevs" in
          destruct (close_below_run n p) as (w' & evs & -> & H);
          cbn [this]
      end
    | split_stuck ].
  all: cbv beta iota.
  all: do 3 eexists; split; [reflexivity | split; [exact I|]].
  all: solve_Forall.
Qed.

Ltac run_cases :=
  repeat first
    [ match goal with
      | |- context [restartServer_child ?e ?a ?b ?h ?p] =>
          let o := fresh "o" in
          let w' := fresh "w" in
          let evs := fresh "evs" in
          let H := fresh "Hevs" in
          let Ho := fresh "Ho" in
          destruct (restartServer_child_run e a b h p)
            as (o & w' & evs & -> & Ho & H);
          cbn [this]
      end
    | split_stuck ];
  cbv beta iota;
  repeat match goal with
  | H : (_ =? _) = true |- _ => apply Z.eqb_eq in H
  | H : (_ =? _) = false |- _ => apply Z.eqb_neq in H
  end.

(** Membership in a log that has been computed. *)
Ltac in_events :=
  cbn [app In] in *;
  repeat match goal with
  | H : In _ (_ ++ _) |- _ => apply in_app_or in H
  | H : _ \/ _ |- _ => destruct H
  | H : False |- _ => destruct H
  | H : In _ [] |- _ => destruct H
  | H : In _ (_ :: _) |- _ => destruct H
  | H : In ?e ?evs, F : Forall child_event ?evs |- _ =>
      exfalso; exact (proj1 (List.Forall_forall _ _) F e H)
  | H : @eq event _ _ |- _ =>
      first [ discriminate H | injection H as ?; subst | clear H ]
  | H : In ?e ?evs, F : Forall (fun e => is_exchange e = false) ?evs |- _ =>
      exfalso;
      discriminate (proj1 (List.Forall_forall _ _) F e H)
  end;
  try solve [ exfalso; lia ].

Ltac start_run p env :=
  destruct p as [[? ? ? ? ? ? ?] ?];
  destruct env as [? ? ? ? ? ? ? ? ? ?];
  unfold_proc.

(** *** [restartServer] *)

Lemma restartServer_throws env p e :
  result (restartServer env p) = Threw e ->
  is_setup_or_io e
  /\ serverNeedsRestart (this (final (restartServer env p))) = true
  /\ pid (this (final (restartServer env p))) = 0.
Proof.
  start_run p env.
  run_cases; intros H; try discriminate; try (subst; contradiction).
  all: injection H as <-; repeat split; assumption.
Qed.

Lemma restartServer_returns env p u :
  result (restartServer env p) = Returned u ->
  serverNeedsRestart (this (final (restartServer env p))) = false.
Proof.
  start_run p env.
  run_cases; intros H; try discriminate; try (subst; contradiction).
  all: reflexivity.
Qed.

Lemma child_event_not_exchange e : child_event e -> is_exchange e = false.
Proof. destruct e; simpl; tauto. Qed.

Lemma restartServer_no_exchange env p :
  Forall (fun e => is_exchange e = false) (events (restartServer env p)).
Proof.
  start_run p env.
  run_cases; cbn [app].
  all: repeat first
         [ apply Forall_nil_2
         | apply Forall_cons_2; [reflexivity|]
         | apply Forall_app_2
         | eapply Forall_impl;
           [eassumption | exact child_event_not_exchange] ].
Qed.

Lemma restartServer_invariant env p :
  invariant (this p) -> invariant (this (final (restartServer env p))).
Proof.
  unfold invariant.
  start_run p env.
  run_cases;
    cbn [MessageChannel.fd MessageChannel.unbound MessageChannel.bind];
    intros H.
  all: split; intros; (reflexivity || discriminate || lia || tauto).
Qed.

(** The configuration strings are never written. *)
Lemma restartServer_config env p :
  logFile (this (final (restartServer env p))) = logFile (this p).
Proof.
  start_run p env. run_cases; reflexivity.
Qed.

(** Where the socket pair leaks: after a log file that cannot be opened,
    both ends are still open. *)
Lemma unopened_log_keeps_socket_pair env p d0 d1 path mode :
  In (Fopen path mode None) (events (restartServer env p)) ->
  In (Socketpair (inr (d0, d1))) (events (restartServer env p)) ->
  (d0 ∈ open_fds (world (final (restartServer env p))))
  /\ (d1 ∈ open_fds (world (final (restartServer env p)))).
Proof.
  start_run p env.
  run_cases; intros H H1; in_events; try discriminate.
  all: split; auto with fds.
Qed.

(** On the other ways out of the parent, what the call opened and did
    not hand to the channel is closed again. *)
Lemma restartServer_closes_transients env p :
  ~ no_return (result (restartServer env p)) ->
  (forall path mode, ~ In (Fopen path mode None) (events (restartServer env p))) ->
  (forall d0 d1,
     In (Socketpair (inr (d0, d1))) (events (restartServer env p)) ->
     (d1 ∉ open_fds (world (final (restartServer env p))))
     /\ (forall e, result (restartServer env p) = Threw e ->
         d0 ∉ open_fds (world (final (restartServer env p)))))
  /\ (forall path mode d,
        In (Fopen path mode (Some d)) (events (restartServer env p)) ->
        d ∉ open_fds (world (final (restartServer env p)))).
Proof.
  start_run p env.
  run_cases; intros Hret Hlog; try (exfalso; apply Hret; assumption).
  all: try (exfalso; eapply Hlog; cbn [app In]; eauto 10; fail).
  all: split; [intros d0 d1 H1; split; [|intros e He] | intros path mode d H1];
       in_events; try discriminate; auto 6 with fds.
Qed.


(** *** The restart that [spawn] triggers *)

Lemma spawn_restart_run env p :
  Forall (fun e => is_exchange e = false) (events (spawn_restart env p))
  /\ (invariant (this p) ->
      invariant (this (final (spawn_restart env p))))
  /\ match result (spawn_restart env p) with
     | Returned _ =>
         serverNeedsRestart (this (final (spawn_restart env p))) = false
     | Threw e =>
         exists cause,
           e = RestartException cause
           /\ serverNeedsRestart (this p) = true
           /\ result (restartServer env p) = Threw cause
           /\ is_setup_or_io cause
           /\ serverNeedsRestart (this (final (spawn_restart env p))) = true
     | _ => serverNeedsRestart (this p) = true
     end.
Proof.
  pose proof (restartServer_no_exchange env p) as Hev.
  pose proof (restartServer_invariant env p) as Hinv.
  pose proof (restartServer_throws env p) as Hthrow.
  pose proof (restartServer_returns env p) as Hret.
  unfold spawn_restart, bind, get, when, try_catch.
  destruct (serverNeedsRestart (this p)) eqn:Hnr.
  - destruct (restartServer env p) as [o p1 evs1].
    cbn [result final events] in *.
    destruct o as [u|e| | |]; cbn [result final events app].
    + split; [exact Hev|]. split; [exact Hinv|]. exact (Hret u eq_refl).
    + destruct (Hthrow e eq_refl) as (Hk & Hn & _).
      destruct e as [msg code|msg|sub]; try contradiction;
        cbn [throw result final events];
        rewrite ?app_nil_r;
        (split; [exact Hev|]); (split; [exact Hinv|]);
        eexists; repeat split; assumption.
    + auto.
    + auto.
    + auto.
  - cbn [ret result final events app this].
    split; [constructor|]. split; [tauto|]. exact Hnr.
Qed.


Lemma filter_write_no_exchange evs tail :
  Forall (fun e => is_exchange e = false) evs ->
  List.filter is_write (evs ++ tail) = List.filter is_write tail.
Proof.
  intros H. rewrite List.filter_app.
  induction H as [|e evs He _ IH]; [reflexivity|].
  cbn [List.filter]. destruct e; try discriminate He; exact IH.
Qed.

Lemma filter_read_no_exchange evs tail :
  Forall (fun e => is_exchange e = false) evs ->
  List.filter is_read (evs ++ tail) = List.filter is_read tail
  /\ List.filter is_readFileDescriptor (evs ++ tail)
     = List.filter is_readFileDescriptor tail.
Proof.
  intros H. rewrite !List.filter_app.
  induction H as [|e evs He _ IH]; [split; reflexivity|].
  cbn [List.filter]. destruct e; try discriminate He; exact IH.
Qed.

Ltac start_spawn env p :=
  let Hev := fresh "Hev" in
  let Hinv := fresh "Hinv" in
  let Hres := fresh "Hres" in
  let o := fresh "o" in
  let evs := fresh "evs" in
  pose proof (spawn_restart_run env p) as (Hev & Hinv & Hres);
  unfold spawn, bind;
  destruct (spawn_restart env p) as [o [[? ? ? ? ? ? ?] ?] evs];
  cbn [result final events this] in Hev, Hinv, Hres;
  destruct env as [? ? ? ? ? ? ? ? ? ?];
  destruct o;
  unfold_proc.

(** A call of [spawn] that finds [serverNeedsRestart] set goes into
    [restartServer], which asks for a socket pair whatever else happens. *)
Lemma spawn_restarts_when_flagged env p appRoot user group :
  serverNeedsRestart (this p) = true ->
  In (Socketpair (socketpair_result env))
     (events (spawn env appRoot user group p)).
Proof.
  intros Hnr.
  assert (Hsp : In (Socketpair (socketpair_result env))
                   (events (restartServer env p))).
  { clear Hnr. start_run p env. run_cases; cbn [app In]; auto 6. }
  unfold spawn, spawn_restart, bind, get, when, try_catch.
  rewrite Hnr.
  destruct (restartServer env p) as [o p1 evs1].
  cbn [events] in Hsp.
  destruct o as [u|e| | |]; cbn [events].
  - destruct (spawn_exchange _ _ _ _ _) as [o2 p2 evs2].
    destruct o2 as [a|e2| | |]; cbv beta iota delta [modify throw];
      cbn [events]; repeat rewrite List.in_app_iff; tauto.
  - destruct e as [msg code|msg|sub]; cbn [throw events];
      repeat rewrite List.in_app_iff; cbn [In]; tauto.
  - exact Hsp.
  - exact Hsp.
  - exact Hsp.
Qed.

(** C2, amended: when writing the request, reading the response or
    receiving the passed descriptor fails, [spawn] throws the error of
    the call that failed (the [IOException] that says that the spawn
    server has exited when the read finds the channel closed),
    [serverNeedsRestart] is [true] when the exception reaches the caller,
    and the call has written the request once and has asked for the
    response and for the descriptor once at most: it does not go through
    the exchange, or a step of it, again. The same holds of whatever
    exception [spawn] throws once the request was handed to the
    channel. *)
Theorem spawn_exchange_failure env p appRoot user group c :
  (forall args e,
     In (ChannelWrite c args (Some e))
        (events (spawn env appRoot user group p)) ->
     exchange_failed (spawn env appRoot user group p) e)
  /\ (forall e,
        In (ChannelRead c (inl e)) (events (spawn env appRoot user group p)) ->
        exchange_failed (spawn env appRoot user group p) e)
  /\ (In (ChannelRead c (inr None))
         (events (spawn env appRoot user group p)) ->
      exchange_failed (spawn env appRoot user group p)
        (IOException "The spawn server has exited unexpectedly."))
  /\ (forall e,
        In (ChannelReadFileDescriptor c (inl e))
           (events (spawn env appRoot user group p)) ->
        exchange_failed (spawn env appRoot user group p) e)
  /\ (forall args r e,
        In (ChannelWrite c args r)
           (events (spawn env appRoot user group p)) ->
        result (spawn env appRoot user group p) = Threw e ->
        exchange_failed (spawn env appRoot user group p) e).
Proof.
  unfold exchange_failed.
  start_spawn env p.
  all: run_cases.
  all: split; [intros args e' H|].
  all: try (split; [intros e' H|]).
  all: try (split; [intros H|]).
  all: try (split; [intros e' H | intros args r' e' H He]).
  all: in_events; try discriminate.
  all: try (injection He as <-).
  all: split; [reflexivity|]; (split; [reflexivity|]).
  all: rewrite filter_write_no_exchange by assumption.
  all: match goal with
       | F : Forall (fun e => is_exchange e = false) ?evs
         |- context [List.filter is_read (?evs ++ ?tail)] =>
           destruct (filter_read_no_exchange evs tail F) as [-> ->]
       end.
  all: cbn [List.filter is_write is_read is_readFileDescriptor length].
  all: repeat split; lia.
Qed.

(** C3: when [spawn] is entered with [serverNeedsRestart = true] and the
    restart it triggers throws [cause], a set-up or I/O error, then
    [spawn] throws a [RestartException], which is not [cause] itself and
    gives [cause] back from [getSubException]; [serverNeedsRestart] is
    still [true] afterwards, the spawn server was not talked to, and the
    next call of [spawn] on the object goes into the restart again. *)
Theorem spawn_restart_failure env p appRoot user group cause :
  serverNeedsRestart (this p) = true ->
  result (restartServer env p) = Threw cause ->
  is_setup_or_io cause
  /\ exists wrapper,
       result (spawn env appRoot user group p) = Threw wrapper
       /\ wrapper <> cause
       /\ getSubException wrapper = Some cause
       /\ serverNeedsRestart
            (this (final (spawn env appRoot user group p))) = true
       /\ Forall (fun e => is_exchange e = false)
            (events (spawn env appRoot user group p))
       /\ forall env' appRoot' user' group',
            In (Socketpair (socketpair_result env'))
               (events (spawn env' appRoot' user' group'
                          (final (spawn env appRoot user group p)))).
Proof.
  intros Hnr Hthrow.
  destruct (restartServer_throws env p cause Hthrow) as (Hk & Hn & _).
  split; [exact Hk|].
  exists (RestartException cause).
  assert (Hrun :
    spawn env appRoot user group p
    = mkRun (Threw (RestartException cause))
        (final (restartServer env p)) (events (restartServer env p))).
  { unfold spawn, spawn_restart, bind, get, when, try_catch.
    rewrite Hnr.
    destruct (restartServer env p) as [o p1 evs1].
    cbn [result final events] in *. subst o.
    destruct cause as [msg code|msg|sub]; try contradiction;
      cbn [throw]; rewrite app_nil_r; reflexivity. }
  rewrite Hrun. cbn [result final events getSubException].
  split; [reflexivity|].
  split.
  { destruct cause; try contradiction; discriminate. }
  split; [reflexivity|].
  split; [exact Hn|].
  split; [apply restartServer_no_exchange|].
  intros env' appRoot' user' group'.
  apply spawn_restarts_when_flagged. exact Hn.
Qed.

(** C6: when the read of the response finds the channel closed by the
    spawn server ([channel.read] returns [false]), [spawn] throws the
    [IOException] that says that the spawn server has exited
    unexpectedly, and sets [serverNeedsRestart]; when the read fails
    with an exception of the channel, that exception is what [spawn]
    throws. *)
Theorem spawn_server_exited env p appRoot user group c :
  (In (ChannelRead c (inr None)) (events (spawn env appRoot user group p)) ->
   result (spawn env appRoot user group p)
   = Threw (IOException "The spawn server has exited unexpectedly.")
   /\ serverNeedsRestart
        (this (final (spawn env appRoot user group p))) = true)
  /\ (forall fault,
        In (ChannelRead c (inl fault))
           (events (spawn env appRoot user group p)) ->
        result (spawn env appRoot user group p) = Threw fault).
Proof.
  start_spawn env p.
  all: run_cases; (split; [intros H | intros fault H]);
       in_events; try discriminate.
  all: try split; reflexivity.
Qed.


(** C5, amended: the first field of a response is converted with
    [atoi], which reports no error. For every first field on which [atoi]
    is defined, well-formed or not, [spawn] goes on to receive the
    descriptor, and how it ends is decided by that call alone: when the
    descriptor arrives, [spawn] returns the handle with [atoi] of the
    field as its pid and [serverNeedsRestart] is [false]; when receiving
    it throws, [spawn] throws that exception with [serverNeedsRestart]
    set. *)
Theorem spawn_pid_by_atoi env p appRoot user group c front rest pid :
  In (ChannelRead c (inr (Some (front :: rest))))
     (events (spawn env appRoot user group p)) ->
  Libc.atoi (Cxx.c_str front) = Some pid ->
  In (ChannelReadFileDescriptor c (readFileDescriptor_result env))
     (events (spawn env appRoot user group p))
  /\ match readFileDescriptor_result env with
     | inr d =>
         result (spawn env appRoot user group p)
         = Returned (Application.mk appRoot pid d)
         /\ serverNeedsRestart
              (this (final (spawn env appRoot user group p))) = false
     | inl e =>
         result (spawn env appRoot user group p) = Threw e
         /\ serverNeedsRestart
              (this (final (spawn env appRoot user group p))) = true
     end.
Proof.
  start_spawn env p.
  all: run_cases; intros Hr Ha; in_events; try discriminate;
       try congruence.
  all: cbn [readFileDescriptor_result].
  all: (split;
        [ repeat rewrite List.in_app_iff; cbn [In]; auto 6
        | split; (congruence || assumption) ]).
Qed.

Lemma spawn_invariant env p appRoot user group :
  invariant (this p) ->
  invariant (this (final (spawn env appRoot user group p))).
Proof.
  unfold invariant.
  start_spawn env p.
  all: run_cases; cbn [MessageChannel.fd] in *; exact Hinv.
Qed.

(** *** The claims on [restartServer] *)

(** C7: with a log file configured, when the attempt to open it in
    append mode fails, [restartServer] throws the [IOException] that
    names the file, and [fork] is not called: no child is made. *)
Theorem restartServer_log_failure env p :
  logFile (this p) <> "" ->
  In (Fopen (Cxx.c_str (logFile (this p))) "a" None)
     (events (restartServer env p)) ->
  result (restartServer env p)
  = Threw (IOException ("Cannot open log file '" +:+ logFile (this p)
                        +:+ "' for writing."))
  /\ forall r, ~ In (Fork r) (events (restartServer env p)).
Proof.
  start_run p env. intros Hlf.
  run_cases; intros H; in_events; try discriminate.
  all: split; [reflexivity | intros r Hr; in_events].
Qed.

Lemma restartServer_log_failure_witness :
  result (restartServer env_log_unwritable stopped)
  = Threw (IOException
             ("Cannot open log file '" +:+ log_path +:+ "' for writing."))
  /\ forall r, ~ In (Fork r) (events (restartServer env_log_unwritable stopped)).
Proof.
  apply (restartServer_log_failure env_log_unwritable stopped).
  - vm_compute. discriminate.
  - vm_compute. right. left. reflexivity.
Defined.

(** C8: when the socket pair cannot be made, or [fork] fails,
    [restartServer] throws a [SystemException] and leaves [pid = 0] and
    [serverNeedsRestart = true]; when it is [fork] that fails, the two
    descriptors of the socket pair and the descriptor of the log file
    are not open any more when the exception leaves the call. *)
Theorem restartServer_setup_failure env p :
  (exists errno, In (Socketpair (inl errno)) (events (restartServer env p)))
  \/ In (Fork (-1)) (events (restartServer env p)) ->
  (exists message code,
     result (restartServer env p) = Threw (SystemException message code))
  /\ pid (this (final (restartServer env p))) = 0
  /\ serverNeedsRestart (this (final (restartServer env p))) = true
  /\ (In (Fork (-1)) (events (restartServer env p)) ->
      (forall d0 d1,
         In (Socketpair (inr (d0, d1))) (events (restartServer env p)) ->
         (d0 ∉ open_fds (world (final (restartServer env p))))
         /\ (d1 ∉ open_fds (world (final (restartServer env p)))))
      /\ (forall path mode d,
            In (Fopen path mode (Some d)) (events (restartServer env p)) ->
            d ∉ open_fds (world (final (restartServer env p))))).
Proof.
  start_run p env.
  run_cases; intros [[errno H]|H]; in_events; try discriminate.
  all: split; [do 2 eexists; reflexivity|].
  all: split; [reflexivity || assumption|].
  all: split; [reflexivity|].
  all: intros Hf; split; [intros d0 d1 H1 | intros path mode d H1];
       in_events; try discriminate.
  all: try split; auto 6 with fds.
Qed.

Lemma restartServer_setup_failure_witness :
  (exists message code,
     result (restartServer env_fork_fails stopped)
     = Threw (SystemException message code))
  /\ pid (this (final (restartServer env_fork_fails stopped))) = 0
  /\ serverNeedsRestart
       (this (final (restartServer env_fork_fails stopped))) = true
  /\ (5 ∉ open_fds (world (final (restartServer env_fork_fails stopped))))
  /\ (6 ∉ open_fds (world (final (restartServer env_fork_fails stopped))))
  /\ (7 ∉ open_fds (world (final (restartServer env_fork_fails stopped)))).
Proof.
  assert (Hfork : In (Fork (-1))
                     (events (restartServer env_fork_fails stopped))).
  { vm_compute. right. right. left. reflexivity. }
  destruct (restartServer_setup_failure env_fork_fails stopped
              (or_intror Hfork)) as (Hthrow & Hpid & Hnr & Hclosed).
  destruct (Hclosed Hfork) as (Hpair & Hlog).
  destruct (Hpair 5 6) as (H5 & H6).
  { vm_compute. left. reflexivity. }
  split; [exact Hthrow|]. split; [exact Hpid|]. split; [exact Hnr|].
  split; [exact H5|]. split; [exact H6|].
  apply (Hlog log_path "a" 7).
  vm_compute. right. left. reflexivity.
Defined.

(** C4, at the input where it fails: the log file cannot be opened
    after the socket pair was made. [restartServer] throws, and the
    descriptors 5 and 6 of the socket pair, which were not open before
    the call and were handed to nobody, are still open: no [close] was
    called. *)
Theorem log_failure_leaks_socket_pair :
  result (restartServer env_log_unwritable stopped)
  = Threw (IOException
             "Cannot open log file '/var/log/passenger.log' for writing.")
  /\ events (restartServer env_log_unwritable stopped)
     = [Socketpair (inr (5, 6)); Fopen log_path "a" None]
  /\ (5 ∉ open_fds (world stopped)) /\ (6 ∉ open_fds (world stopped))
  /\ (5 ∈ open_fds (world (final (restartServer env_log_unwritable stopped))))
  /\ (6 ∈ open_fds (world (final (restartServer env_log_unwritable stopped))))
  /\ MessageChannel.fd
       (channel (this (final (restartServer env_log_unwritable stopped))))
     = None.
Proof.
  split; [vm_compute; reflexivity|].
  split; [vm_compute; reflexivity|].
  repeat split; try (vm_compute; reflexivity);
    apply (bool_decide_unpack _); vm_compute; exact I.
Qed.

(** *** Instances of the claims on [spawn] *)

Lemma spawn_exchange_failure_witness :
  exchange_failed (spawn env_write_fails "/app" "" "" running)
    (SystemException "write() failed" 32)
  /\ exchange_failed (spawn env_server_gone "/app" "" "" running)
       (IOException "The spawn server has exited unexpectedly.")
  /\ exchange_failed (spawn env_no_descriptor "/app" "" "" running)
       (SystemException "Cannot read file descriptor" 104).
Proof.
  split; [|split].
  - apply (proj1 (spawn_exchange_failure env_write_fails running
                    "/app" "" "" (MessageChannel.bind 5)) spawn_request).
    vm_compute. left. reflexivity.
  - apply (proj1 (proj2 (proj2 (spawn_exchange_failure env_server_gone
                    running "/app" "" "" (MessageChannel.bind 5))))).
    vm_compute. right. left. reflexivity.
  - apply (proj1 (proj2 (proj2 (proj2 (spawn_exchange_failure
                    env_no_descriptor running "/app" "" ""
                    (MessageChannel.bind 5)))))).
    vm_compute. right. right. left. reflexivity.
Defined.

Lemma spawn_restart_failure_witness :
  exists wrapper,
    result (spawn env_fork_fails "/app" "" "" stopped) = Threw wrapper
    /\ wrapper <> SystemException "Unable to fork a process" 12
    /\ getSubException wrapper
       = Some (SystemException "Unable to fork a process" 12)
    /\ serverNeedsRestart
         (this (final (spawn env_fork_fails "/app" "" "" stopped))) = true
    /\ Forall (fun e => is_exchange e = false)
         (events (spawn env_fork_fails "/app" "" "" stopped))
    /\ forall env' appRoot' user' group',
         In (Socketpair (socketpair_result env'))
            (events (spawn env' appRoot' user' group'
                       (final (spawn env_fork_fails "/app" "" "" stopped)))).
Proof.
  apply (spawn_restart_failure env_fork_fails stopped "/app" "" ""
           (SystemException "Unable to fork a process" 12)).
  - vm_compute. reflexivity.
  - vm_compute. reflexivity.
Defined.

Lemma spawn_server_exited_witness :
  result (spawn env_server_gone "/app" "" "" running)
  = Threw (IOException "The spawn server has exited unexpectedly.")
  /\ serverNeedsRestart
       (this (final (spawn env_server_gone "/app" "" "" running))) = true.
Proof.
  apply (spawn_server_exited env_server_gone running "/app" "" ""
           (MessageChannel.bind 5)).
  vm_compute. right. left. reflexivity.
Defined.


Lemma spawn_pid_by_atoi_witness :
  In (ChannelReadFileDescriptor (MessageChannel.bind 5) (inr 9))
     (events (spawn env_bad_pid "/app" "" "" running))
  /\ result (spawn env_bad_pid "/app" "" "" running)
     = Returned (Application.mk "/app" 0 9)
  /\ serverNeedsRestart
       (this (final (spawn env_bad_pid "/app" "" "" running))) = false.
Proof.
  apply (spawn_pid_by_atoi env_bad_pid running "/app" "" ""
           (MessageChannel.bind 5) "abc" [] 0).
  - vm_compute. right. left. reflexivity.
  - vm_compute. reflexivity.
Defined.


(** C5, as stated, fails: the response is received, its first field
    "abc" is no numeral, and [spawn] returns a handle, with pid 0; it
    throws nothing and [serverNeedsRestart] stays [false]. *)
Lemma spawn_malformed_pid_accepted :
  In (ChannelRead (MessageChannel.bind 5) (inr (Some ["abc"])))
     (events (spawn env_bad_pid "/app" "" "" running))
  /\ Libc.numeral "abc" = None
  /\ result (spawn env_bad_pid "/app" "" "" running)
     = Returned (Application.mk "/app" 0 9)
  /\ serverNeedsRestart
       (this (final (spawn env_bad_pid "/app" "" "" running))) = false
  /\ ~ (exists e,
          result (spawn env_bad_pid "/app" "" "" running) = Threw e).
Proof.
  split; [vm_compute; right; left; reflexivity|].
  split; [vm_compute; reflexivity|].
  split; [vm_compute; reflexivity|].
  split; [vm_compute; reflexivity|].
  intros (e & He). vm_compute in He. discriminate He.
Qed.

(** C2, as stated, fails where the pid cannot be parsed: the request
    is written, the first field "pid?" of the response is no number, and
    yet no error reaches the caller and [serverNeedsRestart] stays
    [false]. *)
Lemma spawn_unparsable_pid_not_flagged :
  In (ChannelWrite (MessageChannel.bind 5) spawn_request None)
     (events (spawn env_garbled_pid "/app" "" "" running))
  /\ In (ChannelRead (MessageChannel.bind 5) (inr (Some ["pid?"; "x"])))
        (events (spawn env_garbled_pid "/app" "" "" running))
  /\ Libc.numeral "pid?" = None
  /\ (forall e,
        result (spawn env_garbled_pid "/app" "" "" running) <> Threw e)
  /\ serverNeedsRestart
       (this (final (spawn env_garbled_pid "/app" "" "" running))) = false.
Proof.
  split; [vm_compute; left; reflexivity|].
  split; [vm_compute; right; left; reflexivity|].
  split; [vm_compute; reflexivity|].
  split; [intros e He; vm_compute in He; discriminate He|].
  vm_compute. reflexivity.
Qed.

(** *** The invariant *)

(** C9: the constructor establishes the invariant ([pid = 0] exactly
    when the channel is empty), and [restartServer] and [spawn] keep it,
    however they end. The destructor ends the life of the object, and
    there is no object afterwards of which the invariant could fail;
    entered with the invariant, it returns, and leaves neither a channel
    nor a spawn server behind: when a spawn server is there, the calls it
    makes are [channel.close()], on the descriptor that the channel is
    bound to, and then [waitpid] on the server, and the descriptor is
    closed; without a spawn server it does nothing. After a failed
    exchange [serverNeedsRestart] is [true] while [pid] is not 0, and
    the invariant holds. *)
Theorem supervisor_invariant :
  (forall env spawnServerCommand logFile environment rubyCommand uninit w,
     invariant (this (final (construct env spawnServerCommand logFile
                               environment rubyCommand uninit w))))
  /\ (forall env p,
        invariant (this p) ->
        invariant (this (final (restartServer env p))))
  /\ (forall env p appRoot user group,
        invariant (this p) ->
        invariant (this (final (spawn env appRoot user group p))))
  /\ (forall p, pid (this p) = 0 -> destroy p = mkRun (Returned tt) p [])
  /\ (forall p,
        invariant (this p) ->
        result (destroy p) = Returned tt
        /\ (pid (this p) <> 0 ->
            exists d,
              MessageChannel.fd (channel (this p)) = Some d
              /\ events (destroy p) = [ChannelClose d; Waitpid (pid (this p))]
              /\ d ∉ open_fds (world (final (destroy p)))))
  /\ (invariant (this running)
      /\ invariant
           (this (final (spawn env_write_fails "/app" "" "" running)))
      /\ serverNeedsRestart
           (this (final (spawn env_write_fails "/app" "" "" running)))
         = true
      /\ pid (this (final (spawn env_write_fails "/app" "" "" running)))
         <> 0).
Proof.
  split.
  { intros. unfold construct. apply restartServer_invariant.
    unfold invariant. cbn. tauto. }
  split; [exact restartServer_invariant|].
  split; [intros; apply spawn_invariant; assumption|].
  split.
  { intros [[? ? ? ? ? ? ?] ?]. unfold_proc. intros ->. reflexivity. }
  split.
  { intros [[? ? ? ? [[d|]] pid0 ?] ?]; unfold invariant;
      cbn [this pid channel MessageChannel.fd]; intros [H1 H2].
    - assert (Hpid : pid0 <> 0) by (intros H; discriminate (H1 H)).
      apply Z.eqb_neq in Hpid. unfold_proc. rewrite Hpid.
      cbn [MessageChannel.fd MessageChannel.unbound app].
      split; [reflexivity|].
      intros _. exists d. split; [reflexivity|].
      split; [reflexivity | auto with fds].
    - rewrite (H2 eq_refl). unfold_proc. cbn [Z.eqb MessageChannel.fd].
      split; [reflexivity|].
      intros H. contradiction H. reflexivity. }
  split; [vm_compute; split; discriminate|].
  split; [vm_compute; split; discriminate|].
  split; [vm_compute; reflexivity|].
  vm_compute. discriminate.
Qed.

Lemma supervisor_invariant_witness :
  invariant (this (final (restartServer env_ok stopped)))
  /\ invariant (this (final (spawn env_server_gone "/app" "" "" running)))
  /\ destroy stopped = mkRun (Returned tt) stopped []
  /\ result (destroy running) = Returned tt
  /\ events (destroy running) = [ChannelClose 5; Waitpid 1234]
  /\ (5 ∉ open_fds (world (final (destroy running)))).
Proof.
  destruct supervisor_invariant
    as (_ & Hrestart & Hspawn & Hnone & Hdestroy & _).
  destruct (Hdestroy running) as (Hret & Hreap).
  { vm_compute. split; discriminate. }
  destruct Hreap as (d & Hd & Hevs & Hclosed).
  { vm_compute. discriminate. }
  vm_compute in Hd. injection Hd as <-.
  split; [|split; [|split; [|split; [|split]]]].
  - apply (Hrestart env_ok stopped). vm_compute. tauto.
  - apply (Hspawn env_server_gone running "/app" "" "").
    vm_compute. split; discriminate.
  - apply (Hnone stopped). vm_compute. reflexivity.
  - exact Hret.
  - exact Hevs.
  - exact Hclosed.
Defined.

End SpawnProofs.

(** * Further properties *)

Module StringFacts.

Lemma length_append a b :
  String.length (a +:+ b) = (String.length a + String.length b)%nat.
Proof.
  induction a as [|c a IH]; [reflexivity|].
  change (S (String.length (a +:+ b)) = S (String.length a + String.length b)).
  now rewrite IH.
Qed.

Lemma size_append a b : Cxx.size (a +:+ b) = Cxx.size a + Cxx.size b.
Proof. unfold Cxx.size. rewrite length_append. lia. Qed.

Lemma size_nonneg a : 0 <= Cxx.size a.
Proof. unfold Cxx.size. lia. Qed.

Lemma append_assoc a b c : (a +:+ b) +:+ c = a +:+ (b +:+ c).
Proof.
  induction a as [|x a IH]; [reflexivity|].
  change (String x ((a +:+ b) +:+ c) = String x (a +:+ (b +:+ c))).
  now rewrite IH.
Qed.

Lemma append_nil_r a : a +:+ "" = a.
Proof.
  induction a as [|x a IH]; [reflexivity|].
  change (String x (a +:+ "") = String x a). now rewrite IH.
Qed.

(** Reading the left part of a concatenation. *)
Lemma at_index_append_l a b i :
  0 <= i < Cxx.size a -> Cxx.at_index (a +:+ b) i = Cxx.at_index a i.
Proof.
  intros H. unfold Cxx.at_index, Cxx.size in *.
  rewrite <- (String.append_correct1 a b (Z.to_nat i)) by lia.
  reflexivity.
Qed.

Lemma substring_append_prefix a b :
  String.substring 0 (String.length a) (a +:+ b) = a.
Proof.
  induction a as [|x a IH].
  - destruct b; reflexivity.
  - change (String x (String.substring 0 (String.length a) (a +:+ b))
            = String x a).
    now rewrite IH.
Qed.

Lemma length_substring_le s : forall m k,
  (String.length (String.substring m k s) <= String.length s - m)%nat.
Proof.
  induction s as [|c s IH]; intros [|m] [|k]; cbn; try lia.
  - specialize (IH 0%nat k). lia.
  - apply IH.
  - apply IH.
Qed.

(** Where [index] finds a pattern, the pattern fits. *)
Lemma index_bound n pat s m :
  String.index n pat s = Some m ->
  pat <> "" ->
  (m + String.length pat <= String.length s)%nat.
Proof.
  intros H Hne. apply String.index_correct1 in H.
  pose proof (length_substring_le s m (String.length pat)) as Hle.
  rewrite H in Hle. destruct pat; [congruence|]. cbn in *. lia.
Qed.

Lemma substring_clip s : forall n,
  String.substring 0 (Nat.min n (String.length s)) s = String.substring 0 n s.
Proof.
  induction s as [|c s IH]; intros [|n]; cbn; try reflexivity.
  now rewrite IH.
Qed.

End StringFacts.

Module ExtractorExtras.

Import HttpStatusExtractor HeaderScan MoreExamples StringFacts.

Lemma wrap_uint_small n :
  0 <= n < Cxx.UINT_MODULUS -> Cxx.wrap_uint n = n.
Proof. intros H. unfold Cxx.wrap_uint. now apply Z.mod_small. Qed.

(** What one run of the loop of [feed] does. *)
Lemma feed_loop_scan fuel : forall s b s',
  0 <= searchStart s ->
  Cxx.size (buffer s) <= Cxx.UINT_MODULUS ->
  feed_loop fuel s = Returns (b, s') ->
  buffer s' = buffer s
  /\ searchStart s <= searchStart s'
  /\ (forall i, searchStart s <= i < searchStart s' ->
        terminator_at (buffer s) i = false)
  /\ (if b
      then terminator_at (buffer s) (searchStart s') = true
           /\ searchStart s' + 3 < Cxx.size (buffer s)
           /\ fullHeaderReceived s' = true
      else statusLine s' = statusLine s
           /\ fullHeaderReceived s' = fullHeaderReceived s
           /\ (searchStart s' = searchStart s
               /\ (Cxx.size (buffer s) < 3
                   \/ Cxx.size (buffer s) - 3 <= searchStart s)
               \/ searchStart s' = Cxx.size (buffer s) - 3
                  /\ 3 <= Cxx.size (buffer s))).
Proof.
  induction fuel as [|fuel IH]; intros s b s' H0 Hsize; cbn [feed_loop];
    [discriminate|].
  destruct (3 <=? Cxx.size (buffer s)) eqn:H3; cbn [andb].
  2:{ intros [= <- <-]. apply Z.leb_gt in H3.
      repeat split; lia. }
  apply Z.leb_le in H3.
  destruct (searchStart s <? Cxx.size (buffer s) - 3) eqn:Hlt.
  2:{ intros [= <- <-]. apply Z.ltb_ge in Hlt.
      repeat split; lia. }
  apply Z.ltb_lt in Hlt.
  rewrite !wrap_uint_small by lia.
  fold (terminator_at (buffer s) (searchStart s)).
  destruct (terminator_at (buffer s) (searchStart s)) eqn:Ht.
  - destruct (extractStatusLine _) as [[b2 s2]| |] eqn:He; try discriminate.
    intros [= <- <-].
    apply ExtractorProofs.extractStatusLine_frame in He as (Hb & Hs & Hf).
    cbn [buffer searchStart fullHeaderReceived] in Hb, Hs, Hf.
    rewrite Hb, Hs, Hf. repeat split; try lia. exact Ht.
  - intros Hrun. apply IH in Hrun; cbn [buffer searchStart] in *; try lia.
    cbn [statusLine fullHeaderReceived] in Hrun.
    destruct Hrun as (Hb & Hle & Hno & Hres).
    split; [exact Hb|]. split; [lia|]. split.
    { intros i Hi. destruct (Z.eq_dec i (searchStart s)) as [->|Hne];
        [exact Ht | apply Hno; lia]. }
    destruct b; [exact Hres|].
    destruct Hres as (Hst & Hfh & Hstop).
    split; [exact Hst|]. split; [exact Hfh|]. lia.
Qed.

Lemma feed_loop_buffer fuel : forall s0 b s',
  feed_loop fuel s0 = Returns (b, s') -> buffer s' = buffer s0.
Proof.
  induction fuel as [|fuel IH]; intros s0 b s'; cbn [feed_loop];
    [discriminate|].
  destruct (_ && _); [|intros [= <- <-]; reflexivity].
  destruct (_ && _).
  - destruct (extractStatusLine _) as [[b2 s2]| |] eqn:He; try discriminate.
    intros [= <- <-].
    now apply ExtractorProofs.extractStatusLine_frame in He as (Hb & _).
  - intros H. now apply IH in H.
Qed.

(** X1: a call of [feed] on an extractor that has not seen the end of the
    header appends the data to the buffer: whatever the call returns,
    [getBuffer] gives the old buffer followed by the data, also when the
    data goes beyond the end of the header. *)
Theorem feed_appends_data fuel s data b s' :
  fullHeaderReceived s = false ->
  feed fuel s data = Returns (b, s') ->
  getBuffer s' = getBuffer s +:+ data.
Proof.
  unfold feed, getBuffer. intros -> H.
  now apply feed_loop_buffer in H.
Qed.

Lemma feed_appends_data_witness :
  getBuffer Examples.after404 = getBuffer init +:+ Examples.response404.
Proof.
  apply (feed_appends_data 64 init Examples.response404 true).
  - reflexivity.
  - vm_compute. reflexivity.
Defined.

Lemma feed_false_frame fuel s data s' :
  feed fuel s data = Returns (false, s') ->
  statusLine s' = statusLine s /\ fullHeaderReceived s' = false.
Proof.
  unfold feed.
  destruct (fullHeaderReceived s) eqn:Hf; [discriminate|].
  assert (Hgen : forall fuel s0 s',
            feed_loop fuel s0 = Returns (false, s') ->
            statusLine s' = statusLine s0
            /\ fullHeaderReceived s' = fullHeaderReceived s0).
  { clear. induction fuel as [|fuel IH]; intros s0 s'; cbn [feed_loop];
      [discriminate|].
    destruct (_ && _); [|intros [= <-]; auto].
    destruct (_ && _).
    - destruct (extractStatusLine _) as [[b2 s2]| |]; discriminate.
    - intros H. now apply IH in H. }
  intros H. apply Hgen in H. exact H.
Qed.

(** X2: a call of [feed] that returns [false] leaves the status line as
    it was, and the extractor goes on waiting for the end of the header. *)
Theorem feed_false_keeps_status fuel s data s' :
  feed fuel s data = Returns (false, s') ->
  getStatusLine s' = getStatusLine s /\ fullHeaderReceived s' = false.
Proof.
  intros H. unfold getStatusLine. exact (feed_false_frame fuel s data s' H).
Qed.

Lemma feed_false_keeps_status_witness :
  getStatusLine (mk "Status: 404" 8 false ("200 OK" +:+ CRLF))
  = getStatusLine init
  /\ fullHeaderReceived (mk "Status: 404" 8 false ("200 OK" +:+ CRLF))
     = false.
Proof.
  apply (feed_false_keeps_status 64 init "Status: 404").
  vm_compute. reflexivity.
Defined.

(** The extractors between two calls are [scanned]. *)
Lemma feed_scanned fuel s data s' :
  scanned s ->
  Cxx.size (buffer s +:+ data) <= Cxx.UINT_MODULUS ->
  feed fuel s data = Returns (false, s') ->
  scanned s'
  /\ buffer s' = buffer s +:+ data
  /\ forall i, 0 <= i -> i + 3 < Cxx.size (buffer s') ->
       terminator_at (buffer s') i = false.
Proof.
  intros (H0 & Hend & Hno) Hsize. unfold feed.
  destruct (fullHeaderReceived s) eqn:Hf; [discriminate|].
  intros Hrun.
  apply feed_loop_scan in Hrun; cbn [buffer searchStart] in *; try assumption.
  cbn [statusLine fullHeaderReceived] in Hrun.
  destruct Hrun as (Hb & Hle & Hnew & _ & _ & Hstop).
  pose proof (size_append (buffer s) data) as Hlen.
  pose proof (size_nonneg data) as Hdata.
  assert (Hold : forall i, 0 <= i < searchStart s ->
                   terminator_at (buffer s +:+ data) i = false).
  { intros i Hi. specialize (Hno i Hi).
    unfold terminator_at in *.
    rewrite !at_index_append_l by lia. exact Hno. }
  assert (Hall : forall i, 0 <= i < searchStart s' ->
                   terminator_at (buffer s +:+ data) i = false).
  { intros i Hi. destruct (Z_lt_le_dec i (searchStart s));
      [apply Hold | apply Hnew]; lia. }
  unfold scanned. rewrite Hb. repeat split; try lia; try assumption.
  intros i Hi Hi3. apply Hall. lia.
Qed.

Lemma scanned_init : scanned init.
Proof. unfold scanned. cbn. split; [lia|]. split; [now left|]. intros; lia. Qed.

Lemma fed_scanned chunks s :
  fed chunks s ->
  Cxx.size (concat_chunks chunks) <= Cxx.UINT_MODULUS ->
  scanned s /\ buffer s = concat_chunks chunks
  /\ fullHeaderReceived s = false.
Proof.
  induction 1 as [|chunks s fuel data s' Hfed IH Hrun]; intros Hsize.
  - split; [exact scanned_init|]. split; reflexivity.
  - assert (Hcat : concat_chunks (chunks ++ [data])
                   = concat_chunks chunks +:+ data).
    { clear. induction chunks as [|c cs IHc]; cbn [concat_chunks app].
      - apply append_nil_r.
      - rewrite IHc. symmetry. apply append_assoc. }
    rewrite Hcat in *.
    pose proof (size_append (concat_chunks chunks) data) as Hlen.
    pose proof (size_nonneg data) as Hdata.
    destruct IH as (Hsc & Hbuf & Hf); [lia|].
    apply feed_false_frame in Hrun as Hkeep.
    apply feed_scanned in Hrun as (Hsc' & Hbuf' & _);
      [|assumption|rewrite Hbuf; assumption].
    rewrite Hbuf in Hbuf'. tauto.
Qed.

(** X3: a new extractor is fed chunk after chunk, and every call so far
    has returned [false]. Then the next call returns [true] exactly when
    the data fed so far, this chunk included, holds CR LF CR LF somewhere
    (also across the borders of chunks), for buffers of up to 4 GiB. *)
Theorem feed_true_iff_terminator chunks s fuel data b s' :
  fed chunks s ->
  Cxx.size (concat_chunks chunks +:+ data) <= Cxx.UINT_MODULUS ->
  feed fuel s data = Returns (b, s') ->
  getBuffer s' = concat_chunks chunks +:+ data
  /\ (b = true <-> has_terminator (concat_chunks chunks +:+ data)).
Proof.
  intros Hfed Hsize Hrun.
  pose proof (size_append (concat_chunks chunks) data) as Hlen.
  pose proof (size_nonneg data) as Hdata.
  destruct (fed_scanned chunks s Hfed) as (Hsc & Hbuf & Hf); [lia|].
  split.
  { rewrite <- Hbuf. unfold feed in Hrun; rewrite Hf in Hrun. now apply feed_loop_buffer in Hrun. }
  destruct b.
  - split; [intros _|reflexivity].
    unfold feed in Hrun. rewrite Hf in Hrun.
    destruct Hsc as (H0 & _).
    apply feed_loop_scan in Hrun; cbn [buffer searchStart] in *;
      [|assumption|rewrite Hbuf; assumption].
    destruct Hrun as (_ & Hle & _ & Ht & Hin & _).
    rewrite Hbuf in *. exists (searchStart s'). repeat split; try lia.
    exact Ht.
  - split; [discriminate|].
    intros (i & Hi0 & Hi3 & Ht).
    apply feed_scanned in Hrun as (_ & Hbuf' & Hno);
      [|assumption|rewrite Hbuf; assumption].
    rewrite Hbuf' , Hbuf in Hno. rewrite Hno in Ht by assumption.
    discriminate.
Qed.

(** *** [extractStatusLine] stays inside the buffer *)

Lemma find_bound buf pat :
  pat <> "" ->
  Cxx.find buf pat 0 = Cxx.npos
  \/ (0 <= Cxx.find buf pat 0
      /\ Cxx.find buf pat 0 + Cxx.size pat <= Cxx.size buf).
Proof.
  intros Hne. unfold Cxx.find.
  destruct (Cxx.size buf <? 0); [now left|].
  destruct (String.index _ _ _) as [i|] eqn:Hi; [|now left].
  right. apply index_bound in Hi; [|assumption].
  unfold Cxx.size. lia.
Qed.

Lemma substr_in_range buf pos n :
  0 <= pos <= Cxx.size buf -> is_Some (Cxx.substr buf pos n).
Proof.
  intros H. unfold Cxx.substr.
  destruct (Cxx.size buf <? pos) eqn:Hlt; [apply Z.ltb_lt in Hlt; lia|].
  eauto.
Qed.

Lemma uint_below_size : Cxx.UINT_MODULUS + 16 < Cxx.SIZE_MODULUS.
Proof. vm_compute. reflexivity. Qed.

Lemma wrap_size_small n :
  0 <= n < Cxx.SIZE_MODULUS -> Cxx.wrap_size n = n.
Proof. intros H. unfold Cxx.wrap_size. now apply Z.mod_small. Qed.

(** The body of [extractStatusLine] once [start_pos] is known to lie in
    the buffer. *)
Lemma extract_body_in_range s start_pos n :
  start_pos = Cxx.npos \/ 0 <= start_pos <= Cxx.size (buffer s) ->
  (if start_pos =? Cxx.npos then Returns (false, s)
   else
     match Cxx.substr (buffer s) start_pos n with
     | None => OutOfRange
     | Some line =>
         match Cxx.substr line 0 3 with
         | None => OutOfRange
         | Some code =>
             Returns (true,
                      mk (buffer s) (searchStart s) (fullHeaderReceived s)
                         (canonicalStatusLine line code))
         end
     end) <> OutOfRange.
Proof.
  intros [->|H].
  - rewrite Z.eqb_refl. discriminate.
  - destruct (start_pos =? Cxx.npos); [discriminate|].
    destruct (substr_in_range (buffer s) start_pos n H) as [line ->].
    destruct (substr_in_range line 0 3) as [code ->]; [|discriminate].
    pose proof (size_nonneg line). lia.
Qed.

Lemma extractStatusLine_in_range s :
  Cxx.size (buffer s) <= Cxx.UINT_MODULUS ->
  extractStatusLine s <> OutOfRange.
Proof.
  intros Hsize. pose proof uint_below_size as Hmod.
  unfold extractStatusLine.
  assert (Helse :
    Cxx.find (buffer s) (CRLF +:+ statusHeaderName) 0 <> Cxx.npos ->
    0 <= Cxx.wrap_size
           (Cxx.find (buffer s) (CRLF +:+ statusHeaderName) 0
            + (2 + statusHeaderLen))
      <= Cxx.size (buffer s)).
  { intros Hp.
    destruct (find_bound (buffer s) (CRLF +:+ statusHeaderName))
      as [Hn|[H0 Hb]]; [discriminate | contradiction |].
    change (Cxx.size (CRLF +:+ statusHeaderName)) with 10 in Hb.
    unfold statusHeaderLen. rewrite wrap_size_small; lia. }
  destruct (statusHeaderLen <? Cxx.size (buffer s)) eqn:H8; cbn [andb].
  1: destruct (String.prefix statusHeaderName (buffer s)).
  1: { apply Z.ltb_lt in H8. apply extract_body_in_range.
       right. unfold statusHeaderLen in *. lia. }
  all: destruct (Cxx.find (buffer s) (CRLF +:+ statusHeaderName) 0
                 =? Cxx.npos) eqn:Hp;
       apply extract_body_in_range;
       [ left; now apply Z.eqb_eq in Hp
       | right; apply Helse; now apply Z.eqb_neq in Hp ].
Qed.

Lemma feed_loop_in_range fuel : forall s,
  Cxx.size (buffer s) <= Cxx.UINT_MODULUS ->
  feed_loop fuel s <> OutOfRange.
Proof.
  induction fuel as [|fuel IH]; intros s Hsize; cbn [feed_loop];
    [discriminate|].
  destruct (_ && _); [|discriminate].
  destruct (_ && _).
  - pose proof (extractStatusLine_in_range
                  (mk (buffer s) (searchStart s) true (statusLine s)) Hsize).
    destruct (extractStatusLine _) as [[b2 s2]| |]; congruence.
  - apply IH. exact Hsize.
Qed.

(** X4: on buffers of up to 4 GiB, [feed] comes back with a result: the
    scan ends within one step for each byte of the buffer, and
    [extractStatusLine] never asks [substr] for a position beyond the end
    of the buffer, so no [std::out_of_range] leaves the call. *)
Theorem feed_returns_normally s data :
  0 <= searchStart s ->
  Cxx.size (buffer s +:+ data) <= Cxx.UINT_MODULUS ->
  exists b s',
    feed (S (String.length (buffer s +:+ data))) s data = Returns (b, s').
Proof.
  intros H0 Hsize.
  pose proof (ExtractorProofs.feed_returns s data H0 Hsize) as Hfuel.
  assert (Hrange : feed (S (String.length (buffer s +:+ data))) s data
                   <> OutOfRange).
  { unfold feed. destruct (fullHeaderReceived s); [discriminate|].
    apply feed_loop_in_range. exact Hsize. }
  destruct (feed _ s data) as [[b s']| |]; [eauto | congruence | congruence].
Qed.

Lemma feed_returns_normally_witness :
  exists b s',
    feed (S (String.length (buffer init +:+ Examples.response404)))
         init Examples.response404 = Returns (b, s').
Proof.
  apply (feed_returns_normally init Examples.response404).
  - vm_compute. discriminate.
  - vm_compute. discriminate.
Defined.

(** *** What [extractStatusLine] takes from the buffer *)

(** The first CR LF after a text that has none stands at its end. *)
Lemma index_crlf pre rest :
  no_crlf pre = true ->
  String.index 0 CRLF (pre +:+ CRLF +:+ rest) = Some (String.length pre).
Proof.
  induction pre as [|c pre IH]; intros Hno.
  - change ("" +:+ CRLF +:+ rest) with (String CR (String LF rest)).
    cbn [String.index]. unfold CRLF at 1. cbn [String.prefix].
    destruct (ascii_dec CR CR) as [_|]; [|congruence].
    destruct (ascii_dec LF LF) as [_|]; [|congruence].
    destruct rest; reflexivity.
  - cbn [no_crlf] in Hno. apply andb_prop in Hno as [Hc Hno].
    specialize (IH Hno).
    change (String c pre +:+ CRLF +:+ rest)
      with (String c (pre +:+ CRLF +:+ rest)).
    cbn [String.index].
    assert (Hpre : String.prefix CRLF (String c (pre +:+ CRLF +:+ rest))
                   = false).
    { unfold CRLF at 1. cbn [String.prefix].
      destruct (ascii_dec CR c) as [<-|]; [|reflexivity].
      destruct pre as [|c' pre'].
      - change ("" +:+ CRLF +:+ rest) with (String CR (String LF rest)).
        cbn [String.prefix].
        destruct (ascii_dec LF CR) as [Heq|]; [discriminate Heq|reflexivity].
      - change (String c' pre' +:+ CRLF +:+ rest)
          with (String c' (pre' +:+ CRLF +:+ rest)).
        cbn [String.prefix].
        destruct (ascii_dec LF c') as [<-|]; [|reflexivity].
        discriminate Hc. }
    rewrite Hpre, IH. reflexivity.
Qed.

(** When the loop of [feed] says [true], what it returns is what
    [extractStatusLine] makes of the buffer. *)
Lemma feed_loop_extracts fuel : forall s0 s',
  feed_loop fuel s0 = Returns (true, s') ->
  exists i b,
    extractStatusLine (mk (buffer s0) i true (statusLine s0))
    = Returns (b, s').
Proof.
  induction fuel as [|fuel IH]; intros s0 s'; cbn [feed_loop];
    [discriminate|].
  destruct (_ && _); [|discriminate].
  destruct (_ && _).
  - destruct (extractStatusLine _) as [[b2 s2]| |] eqn:He; try discriminate.
    intros [= <-]. eauto.
  - intros H. apply IH in H. exact H.
Qed.

(** The status header at the start of the buffer. *)
Lemma extract_leading_status s line rest :
  buffer s = statusHeaderName +:+ line +:+ CRLF +:+ rest ->
  no_crlf line = true ->
  Cxx.size (buffer s) <= Cxx.UINT_MODULUS ->
  extractStatusLine s
  = Returns (true,
             mk (buffer s) (searchStart s) (fullHeaderReceived s)
                (canonicalStatusLine (line +:+ CRLF)
                   (String.substring 0 3 (line +:+ CRLF)))).
Proof.
  intros Hbuf Hno Hsize. pose proof uint_below_size as Hmod.
  assert (Hlen : Cxx.size (buffer s)
                 = 8 + Cxx.size line + 2 + Cxx.size rest).
  { rewrite Hbuf, !size_append.
    change (Cxx.size statusHeaderName) with 8.
    change (Cxx.size CRLF) with 2. lia. }
  pose proof (size_nonneg line) as Hl. pose proof (size_nonneg rest) as Hr.
  unfold extractStatusLine.
  assert (H8 : (statusHeaderLen <? Cxx.size (buffer s)) = true).
  { apply Z.ltb_lt. unfold statusHeaderLen. lia. }
  assert (Hpre : String.prefix statusHeaderName (buffer s) = true).
  { apply String.prefix_correct. rewrite Hbuf.
    apply substring_append_prefix. }
  rewrite H8, Hpre. cbn [andb].
  assert (Hfind : Cxx.find (buffer s) CRLF 0 = 8 + Cxx.size line).
  { unfold Cxx.find.
    destruct (Cxx.size (buffer s) <? 0) eqn:Hneg;
      [apply Z.ltb_lt in Hneg; lia|].
    change (Z.to_nat 0) with 0%nat.
    rewrite Hbuf, <- append_assoc.
    rewrite (index_crlf (statusHeaderName +:+ line) rest) by exact Hno.
    rewrite length_append. unfold Cxx.size. cbn [String.length statusHeaderName].
    lia. }
  rewrite Hfind.
  change (statusHeaderLen =? Cxx.npos) with false. cbv iota.
  unfold statusHeaderLen.
  rewrite (wrap_size_small (8 + Cxx.size line + 2)) by lia.
  replace (8 + Cxx.size line + 2 - 8) with (Cxx.size line + 2) by lia.
  rewrite wrap_size_small by lia.
  assert (Hline : Cxx.substr (buffer s) 8 (Cxx.size line + 2)
                  = Some (line +:+ CRLF)).
  { unfold Cxx.substr.
    destruct (Cxx.size (buffer s) <? 8) eqn:Hlt;
      [apply Z.ltb_lt in Hlt; lia|].
    f_equal. rewrite Z.min_l by lia.
    replace (Z.to_nat (Cxx.size line + 2))
      with (String.length (line +:+ CRLF))
      by (rewrite length_append; unfold Cxx.size; cbn [String.length CRLF]; lia).
    rewrite Hbuf.
    change (String.substring (Z.to_nat 8) (String.length (line +:+ CRLF))
              (statusHeaderName +:+ line +:+ CRLF +:+ rest))
      with (String.substring 0 (String.length (line +:+ CRLF))
              (line +:+ CRLF +:+ rest)).
    rewrite <- append_assoc. apply substring_append_prefix. }
  rewrite Hline.
  assert (Hcode : Cxx.substr (line +:+ CRLF) 0 3
                  = Some (String.substring 0 3 (line +:+ CRLF))).
  { unfold Cxx.substr.
    pose proof (size_nonneg (line +:+ CRLF)) as Hlc.
    destruct (Cxx.size (line +:+ CRLF) <? 0) eqn:Hlt;
      [apply Z.ltb_lt in Hlt; lia|].
    f_equal. rewrite <- (substring_clip (line +:+ CRLF) 3).
    f_equal. unfold Cxx.size. lia. }
  rewrite Hcode. reflexivity.
Qed.

(** X5: the response starts with a status header whose first three
    characters are a code of the table. When [feed] returns [true], the
    status line is the code, a space, the phrase of the table and CR LF:
    the text that the response gave after the code is dropped. *)
Theorem feed_known_status fuel s data s' code tail rest reason :
  fullHeaderReceived s = false ->
  feed fuel s data = Returns (true, s') ->
  buffer s +:+ data = "Status: " +:+ (code +:+ tail) +:+ CRLF +:+ rest ->
  String.length code = 3%nat ->
  no_crlf (code +:+ tail) = true ->
  httpStatusCodesMap !! code = Some reason ->
  Cxx.size (buffer s +:+ data) <= Cxx.UINT_MODULUS ->
  getStatusLine s' = code +:+ " " +:+ reason +:+ CRLF.
Proof.
  intros Hf Hrun Hbuf Hcode Hno Hmap Hsize.
  unfold feed in Hrun. rewrite Hf in Hrun.
  apply feed_loop_extracts in Hrun as (i & b & Hex).
  cbn [buffer statusLine] in Hex.
  rewrite (extract_leading_status _ (code +:+ tail) rest) in Hex;
    cbn [buffer]; try assumption.
  injection Hex as _ <-. cbn [getStatusLine statusLine].
  rewrite append_assoc, <- Hcode, substring_append_prefix.
  unfold canonicalStatusLine. rewrite Hmap. reflexivity.
Qed.

(** X6: the response starts with a status header whose first three
    characters are no code of the table. When [feed] returns [true], the
    status line is the text of the header after "Status: ", with its
    CR LF. *)
Theorem feed_unknown_status fuel s data s' line rest :
  fullHeaderReceived s = false ->
  feed fuel s data = Returns (true, s') ->
  buffer s +:+ data = "Status: " +:+ line +:+ CRLF +:+ rest ->
  no_crlf line = true ->
  httpStatusCodesMap !! String.substring 0 3 (line +:+ CRLF) = None ->
  Cxx.size (buffer s +:+ data) <= Cxx.UINT_MODULUS ->
  getStatusLine s' = line +:+ CRLF.
Proof.
  intros Hf Hrun Hbuf Hno Hmap Hsize.
  unfold feed in Hrun. rewrite Hf in Hrun.
  apply feed_loop_extracts in Hrun as (i & b & Hex).
  cbn [buffer statusLine] in Hex.
  rewrite (extract_leading_status _ line rest) in Hex;
    cbn [buffer]; try assumption.
  injection Hex as _ <-. cbn [getStatusLine statusLine].
  unfold canonicalStatusLine. rewrite Hmap. reflexivity.
Qed.

(** X7: the response does not start with "Status: " and has no line that
    does. When [feed] returns [true], the status line is what it was
    before the call: the "200 OK" of a new extractor stays. *)
Theorem feed_without_status fuel s data s' :
  fullHeaderReceived s = false ->
  feed fuel s data = Returns (true, s') ->
  String.prefix "Status: " (buffer s +:+ data) = false ->
  String.index 0 (CRLF +:+ "Status: ") (buffer s +:+ data) = None ->
  getStatusLine s' = getStatusLine s.
Proof.
  intros Hf Hrun Hpre Hidx.
  unfold feed in Hrun. rewrite Hf in Hrun.
  apply feed_loop_extracts in Hrun as (i & b & Hex).
  cbn [buffer statusLine] in Hex.
  unfold extractStatusLine in Hex. cbn [buffer] in Hex.
  change statusHeaderName with "Status: " in Hex.
  rewrite Hpre, Bool.andb_false_r in Hex.
  unfold Cxx.find in Hex.
  pose proof (size_nonneg (buffer s +:+ data)) as Hn.
  destruct (Cxx.size (buffer s +:+ data) <? 0) eqn:Hlt;
    [apply Z.ltb_lt in Hlt; lia|].
  change (Z.to_nat 0) with 0%nat in Hex. rewrite Hidx in Hex.
  rewrite Z.eqb_refl in Hex. cbv iota beta in Hex. rewrite Z.eqb_refl in Hex.
  injection Hex as _ <-. reflexivity.
Qed.

(** *** Instances *)

Lemma feed_true_iff_terminator_witness :
  getBuffer after_tail = concat_chunks [chunk_head] +:+ chunk_tail
  /\ (true = true
      <-> has_terminator (concat_chunks [chunk_head] +:+ chunk_tail)).
Proof.
  apply (feed_true_iff_terminator [chunk_head] after_head 64 chunk_tail
           true after_tail).
  - apply (fed_snoc [] init 64 chunk_head after_head fed_nil).
    vm_compute. reflexivity.
  - vm_compute. discriminate.
  - vm_compute. reflexivity.
Defined.

Lemma feed_known_status_witness :
  getStatusLine Examples.after404 = "404" +:+ " " +:+ "Not Found" +:+ CRLF.
Proof.
  apply (feed_known_status 64 init Examples.response404 Examples.after404
           "404" " Not Found"
           ("Content-Type: text/html" +:+ CRLF +:+ CRLF +:+ "<html>")
           "Not Found").
  - reflexivity.
  - vm_compute. reflexivity.
  - vm_compute. reflexivity.
  - reflexivity.
  - vm_compute. reflexivity.
  - vm_compute. reflexivity.
  - vm_compute. discriminate.
Defined.

Lemma feed_unknown_status_witness :
  getStatusLine after999 = "999 Teapot" +:+ CRLF.
Proof.
  apply (feed_unknown_status 64 init response999 after999
           "999 Teapot" CRLF).
  - reflexivity.
  - vm_compute. reflexivity.
  - vm_compute. reflexivity.
  - vm_compute. reflexivity.
  - vm_compute. reflexivity.
  - vm_compute. discriminate.
Defined.

Lemma feed_without_status_witness :
  getStatusLine after_tail = getStatusLine after_head.
Proof.
  apply (feed_without_status 64 after_head chunk_tail after_tail).
  - reflexivity.
  - vm_compute. reflexivity.
  - vm_compute. reflexivity.
  - vm_compute. reflexivity.
Defined.

End ExtractorExtras.

Module SpawnExtras.

Import Sys SpawnManager Examples Configuration MoreExamples SpawnProofs.

#[local] Hint Resolve closed_not_elem closed_not_elem_mono
  opened_elem opened_elem_mono : fds.

(** *** The forked child *)

Lemma close_below_world n p :
  exists w evs,
    close_below n p = mkRun (Returned tt) (mkProc (this p) w) evs
    /\ Forall child_event evs
    /\ environ w = environ (world p)
    /\ forall d,
         d ∈ open_fds w <->
         d ∈ open_fds (world p)
         /\ (is_std d = true \/ d < 0 \/ Z.of_nat n <= d).
Proof.
  revert p; induction n as [|i IH]; intros [s w].
  - exists w, []. cbn [this world].
    split; [reflexivity|]. split; [constructor|]. split; [reflexivity|].
    intros d. split; [|tauto].
    intros Hd. split; [exact Hd|].
    destruct (Z_lt_le_dec d 0); [right; left; lia | right; right; lia].
  - cbn [close_below]. unfold bind at 1.
    destruct (is_std (Z.of_nat i)) eqn:Hstd; cbn [negb when].
    + cbn [ret]. destruct (IH (mkProc s w)) as (w' & evs & -> & Hevs & Henv & Hw).
      cbn [this world] in *. exists w', evs.
      split; [reflexivity|]. split; [exact Hevs|]. split; [exact Henv|].
      intros d. rewrite Hw. split; intros [Hd Hk]; (split; [exact Hd|]).
      * destruct Hk as [Hk|[Hk|Hk]]; [tauto | tauto |].
        destruct (Z.eq_dec d (Z.of_nat i)) as [->|]; [tauto | right; right; lia].
      * destruct Hk as [Hk|[Hk|Hk]]; [tauto | tauto | right; right; lia].
    + unfold_proc.
      destruct (IH (mkProc s (closed (Z.of_nat i) w)))
        as (w' & evs & -> & Hevs & Henv & Hw).
      cbn [this world] in *. exists w', (Close (Z.of_nat i) :: evs).
      split; [reflexivity|].
      split; [constructor; [exact I | exact Hevs]|].
      split; [exact Henv|].
      intros d. rewrite Hw. unfold closed; cbn [open_fds].
      rewrite elem_of_difference, elem_of_singleton.
      split.
      * intros [[Hd Hne] Hk]. split; [exact Hd|].
        destruct Hk as [Hk|[Hk|Hk]]; [tauto | tauto | right; right; lia].
      * intros [Hd Hk]. split; [split; [exact Hd|]|].
        -- intros ->. destruct Hk as [Hk|[Hk|Hk]]; [congruence | lia | lia].
        -- destruct Hk as [Hk|[Hk|Hk]]; [tauto | tauto | right; right; lia].
Qed.

(** The child, when the stream of the log file is there if a log file is
    configured: it ends in [execlp] or in [_exit(1)], with the object as
    it was. *)
Lemma restartServer_child_end env fds0 fds1 h s w :
  (nonempty (logFile s) = true -> is_Some h) ->
  exists w' evs,
    restartServer_child env fds0 fds1 h (mkProc s w)
    = mkRun (child_end env) (mkProc s w') evs
    /\ Forall child_event evs
    /\ (forall d, d ∈ open_fds w' -> kept_by_child env d)
    /\ In (Execlp (Cxx.c_str (rubyCommand s))
             [Cxx.c_str (rubyCommand s); Cxx.c_str (spawnServerCommand s)]
             (fst <$> execlp_result env)) evs
    /\ (forall e,
          execlp_result env = Some e ->
          In (Fprintf ("Unable to run " +:+ Cxx.c_str (rubyCommand s)
                       +:+ ": " +:+ snd e +:+ String LF "")) evs)
    /\ (nonempty (environment s) = true ->
        environ w' !! "RAILS_ENV" = Some (Cxx.c_str (environment s))).
Proof.
  intros Hlog.
  destruct s as [cmd lf envn ruby ch p nr].
  destruct env as [sp fo fr fe om ex wr rd rfd ao].
  cbn [logFile] in Hlog.
  unfold restartServer_child, child_end, kept_by_child. unfold_proc.
  destruct (nonempty lf) eqn:Hlf.
  1: destruct (Hlog eq_refl) as [d0 ->].
  all: repeat first
      [ match goal with
        | |- context [close_below ?n ?p] =>
            let w' := fresh "w" in
            let evs := fresh "evs" in
            let H := fresh "Hevs" in
            let Henv := fresh "Henv" in
            let Hw := fresh "Hw" in
            destruct (close_below_world n p)
              as (w' & evs & -> & H & Henv & Hw);
            cbn [this world] in *
        end
      | split_stuck ].
  all: cbv beta iota.
  all: do 2 eexists; split; [reflexivity|].
  all: split; [solve_Forall|].
  all: split; [intros d Hd; apply Hw in Hd; tauto|].
  all: split; [cbn [app In fmap option_fmap option_map fst];
               repeat rewrite List.in_app_iff; cbn [In]; tauto|].
  all: split;
       [ intros e0 He;
         first [ discriminate He
               | injection He as <-;
                 repeat rewrite List.in_app_iff; cbn [In snd]; tauto ]
       | intros Hne; first [ discriminate Hne | idtac ] ].
  all: rewrite Henv.
  all: repeat match goal with
       | |- context [if ?b then _ else _] => destruct b
       end.
  all: unfold closed, opened; cbn [environ].
  all: apply lookup_insert_eq.
Qed.

(** Case analysis on a run of [restartServer], with the child taken to
    its end. *)
Ltac child_side :=
  let H := fresh in
  intros H; cbn [logFile] in H; first [ solve [eauto] | congruence ].

Ltac run_cases_child :=
  repeat first
    [ match goal with
      | |- context [restartServer_child ?e ?a ?b ?h (mkProc ?s ?w)] =>
          let w' := fresh "w" in
          let evs := fresh "evs" in
          let Hevs := fresh "Hevs" in
          let Hkept := fresh "Hkept" in
          let Hexec := fresh "Hexec" in
          let Hdiag := fresh "Hdiag" in
          let Hrails := fresh "Hrails" in
          destruct (restartServer_child_end e a b h s w)
            as (w' & evs & -> & Hevs & Hkept & Hexec & Hdiag & Hrails);
          [ child_side | ]
      end
    | split_stuck ];
  cbv beta iota;
  repeat match goal with
  | H : (_ =? _) = true |- _ => apply Z.eqb_eq in H
  | H : (_ =? _) = false |- _ => apply Z.eqb_neq in H
  end.

(** What a run of [restartServer] that forked as the child comes to. *)
Lemma restartServer_as_child env p :
  In (Fork 0) (events (restartServer env p)) ->
  result (restartServer env p) = child_end env
  /\ pid (this (final (restartServer env p))) = 0
  /\ (forall d,
        d ∈ open_fds (world (final (restartServer env p))) ->
        kept_by_child env d)
  /\ In (Execlp (Cxx.c_str (rubyCommand (this p)))
           [Cxx.c_str (rubyCommand (this p));
            Cxx.c_str (spawnServerCommand (this p))]
           (fst <$> execlp_result env))
        (events (restartServer env p))
  /\ (forall e,
        execlp_result env = Some e ->
        In (Fprintf ("Unable to run " +:+ Cxx.c_str (rubyCommand (this p))
                     +:+ ": " +:+ snd e +:+ String LF ""))
           (events (restartServer env p)))
  /\ (nonempty (environment (this p)) = true ->
      environ (world (final (restartServer env p))) !! "RAILS_ENV"
      = Some (Cxx.c_str (environment (this p)))).
Proof.
  start_run p env.
  run_cases_child; intros Hfork; in_events; try discriminate.
  all: cbn [rubyCommand spawnServerCommand environment] in *.
  all: split; [reflexivity|].
  all: split; [reflexivity|].
  all: split; [exact Hkept|].
  all: split; [repeat rewrite List.in_app_iff; cbn [In]; tauto|].
  all: split; [intros e He; specialize (Hdiag e He);
               repeat rewrite List.in_app_iff; cbn [In]; tauto
              | exact Hrails].
Qed.

(** The ways in which a run of [restartServer] can end. *)
Lemma restartServer_outcomes env p :
  result (restartServer env p) = Returned tt
  \/ (exists e, result (restartServer env p) = Threw e)
  \/ result (restartServer env p) = child_end env.
Proof.
  start_run p env.
  run_cases_child; eauto.
Qed.

(** *** [restartServer] *)

(** X8: when [restartServer] returns, the socket pair was made, [pid] is
    what [fork] returned (neither 0 nor -1), the channel is bound to the
    first descriptor of the pair, [serverNeedsRestart] is [false], and
    the second descriptor and the stream of the log file are closed. The
    first descriptor is open when the answers of the system gave it to
    nothing else. *)
Theorem restartServer_success env p :
  result (restartServer env p) = Returned tt ->
  exists fds0 fds1,
    socketpair_result env = inr (fds0, fds1)
    /\ channel (this (final (restartServer env p))) = MessageChannel.bind fds0
    /\ pid (this (final (restartServer env p))) = fork_result env
    /\ fork_result env <> 0 /\ fork_result env <> -1
    /\ serverNeedsRestart (this (final (restartServer env p))) = false
    /\ (fds1 ∉ open_fds (world (final (restartServer env p))))
    /\ (nonempty (logFile (this p)) = true ->
        exists d, fopen_result env = Some d
                  /\ d ∉ open_fds (world (final (restartServer env p))))
    /\ (fds0 <> fds1 -> fopen_result env <> Some fds0 ->
        fds0 ∈ open_fds (world (final (restartServer env p)))).
Proof.
  start_run p env.
  run_cases; intros H; try discriminate; try (subst; contradiction).
  all: do 2 eexists; split; [reflexivity|].
  all: cbn [logFile].
  all: repeat split; try assumption; auto with fds.
  all: try (intros Hne; first [ discriminate Hne | eexists; split; [reflexivity|]; auto with fds ]).
  all: intros Hd Hf; unfold closed, opened; cbn [open_fds].
  all: repeat rewrite elem_of_difference; repeat rewrite elem_of_union;
       repeat rewrite elem_of_singleton.
  all: repeat split; try tauto; congruence.
Qed.

Lemma restartServer_success_witness :
  exists fds0 fds1,
    socketpair_result env_ok = inr (fds0, fds1)
    /\ channel (this (final (restartServer env_ok stopped)))
       = MessageChannel.bind fds0
    /\ pid (this (final (restartServer env_ok stopped))) = fork_result env_ok
    /\ fork_result env_ok <> 0 /\ fork_result env_ok <> -1
    /\ serverNeedsRestart (this (final (restartServer env_ok stopped))) = false
    /\ (fds1 ∉ open_fds (world (final (restartServer env_ok stopped))))
    /\ (nonempty (logFile (this stopped)) = true ->
        exists d, fopen_result env_ok = Some d
                  /\ d ∉ open_fds (world (final (restartServer env_ok stopped))))
    /\ (fds0 <> fds1 -> fopen_result env_ok <> Some fds0 ->
        fds0 ∈ open_fds (world (final (restartServer env_ok stopped)))).
Proof.
  apply (restartServer_success env_ok stopped).
  vm_compute. reflexivity.
Defined.

(** X9: [restartServer] first gives up the spawn server that it has:
    with [pid] not 0 it closes the channel, if the channel is bound, then
    waits for that pid, and only then asks for the socket pair; with
    [pid = 0] the socket pair comes first and nothing is waited for. *)
Theorem restartServer_reaps_first env p :
  (pid (this p) <> 0 ->
   exists rest,
     events (restartServer env p)
     = match MessageChannel.fd (channel (this p)) with
       | Some d => [ChannelClose d]
       | None => []
       end
       ++ Waitpid (pid (this p))
       :: Socketpair (socketpair_result env) :: rest
     /\ forall q, ~ In (Waitpid q) rest)
  /\ (pid (this p) = 0 ->
      exists rest,
        events (restartServer env p)
        = Socketpair (socketpair_result env) :: rest
        /\ (forall q, ~ In (Waitpid q) rest)
        /\ (forall d, ~ In (ChannelClose d) rest)).
Proof.
  start_run p env.
  run_cases; (split; intros Hpid); try contradiction; try congruence.
  all: cbn [MessageChannel.fd app].
  all: eexists; split; [reflexivity|].
  all: repeat split; intros q Hq; in_events.
Qed.

Lemma restartServer_reaps_first_witness :
  exists rest,
    events (restartServer env_ok suspect)
    = [ChannelClose 5] ++ Waitpid 1234
      :: Socketpair (socketpair_result env_ok) :: rest
    /\ forall q, ~ In (Waitpid q) rest.
Proof.
  apply (restartServer_reaps_first env_ok suspect).
  vm_compute. discriminate.
Defined.

(** X10: in the process that [fork] made, [restartServer] does not come
    back: [pid] is 0, [execlp] is called with the C strings of the
    interpreter and of the spawn server (what [c_str()] gives: the
    characters before a first NUL), and the run ends there; when [execlp]
    fails, the child writes "Unable to run ..." with the C string of the
    interpreter and ends in [_exit(1)]. No exception reaches the caller
    in the child. *)
Theorem child_execs_or_exits env p :
  In (Fork 0) (events (restartServer env p)) ->
  result (restartServer env p) = child_end env
  /\ pid (this (final (restartServer env p))) = 0
  /\ In (Execlp (Cxx.c_str (rubyCommand (this p)))
           [Cxx.c_str (rubyCommand (this p));
            Cxx.c_str (spawnServerCommand (this p))]
           (fst <$> execlp_result env))
        (events (restartServer env p))
  /\ (forall e,
        execlp_result env = Some e ->
        In (Fprintf ("Unable to run " +:+ Cxx.c_str (rubyCommand (this p))
                     +:+ ": " +:+ snd e +:+ String LF ""))
           (events (restartServer env p))).
Proof.
  intros H.
  destruct (restartServer_as_child env p H) as (Hr & Hp & _ & He & Hd & _).
  auto.
Qed.

Lemma child_execs_or_exits_witness :
  result (restartServer env_child stopped) = Exited 1
  /\ pid (this (final (restartServer env_child stopped))) = 0
  /\ In (Execlp "ruby" ["ruby"; "spawn-server"] (Some 2))
        (events (restartServer env_child stopped)).
Proof.
  destruct (child_execs_or_exits env_child stopped) as (Hr & Hp & He & _).
  - vm_compute. right. right. left. reflexivity.
  - split; [exact Hr | split; [exact Hp | exact He]].
Defined.

(** X11: the child ends with no descriptor open between 0 and
    [sysconf(_SC_OPEN_MAX)] other than the three standard streams,
    whatever was open in the parent. *)
Theorem child_closes_descriptors env p d :
  In (Fork 0) (events (restartServer env p)) ->
  0 <= d < open_max env ->
  is_std d = false ->
  d ∉ open_fds (world (final (restartServer env p))).
Proof.
  intros H Hd Hstd Hin.
  destruct (restartServer_as_child env p H) as (_ & _ & Hk & _).
  destruct (Hk d Hin) as [Hs|[Hn|Hm]]; [congruence | lia | lia].
Qed.

Lemma child_closes_descriptors_witness :
  5 ∉ open_fds (world (final (restartServer env_child running))).
Proof.
  apply (child_closes_descriptors env_child running 5).
  - vm_compute. right. right. right. right. left. reflexivity.
  - vm_compute. split; [discriminate | reflexivity].
  - vm_compute. reflexivity.
Defined.

(** X12: with a non-empty [environment], the child has [RAILS_ENV] set
    to the C string of it (what [c_str()] gives: the characters before a
    first NUL) when it comes to [execlp]. *)
Theorem child_sets_rails_env env p :
  In (Fork 0) (events (restartServer env p)) ->
  nonempty (environment (this p)) = true ->
  environ (world (final (restartServer env p))) !! "RAILS_ENV"
  = Some (Cxx.c_str (environment (this p))).
Proof.
  intros H Hne.
  destruct (restartServer_as_child env p H) as (_ & _ & _ & _ & _ & Hr).
  exact (Hr Hne).
Qed.

Lemma child_sets_rails_env_witness :
  environ (world (final (restartServer env_child stopped))) !! "RAILS_ENV"
  = Some "production".
Proof.
  apply (child_sets_rails_env env_child stopped).
  - vm_compute. right. right. left. reflexivity.
  - vm_compute. reflexivity.
Defined.

Lemma restartServer_never_undefined_aux env p :
  result (restartServer env p) <> Undefined.
Proof.
  destruct (restartServer_outcomes env p) as [H|[[e H]|H]]; rewrite H;
    try discriminate.
  unfold child_end. destruct (execlp_result env); discriminate.
Qed.

(** X13: [restartServer] never runs into undefined behaviour: [fclose]
    and [fileno] get the stream of the log file only on the paths on
    which it was opened. *)
Theorem restartServer_never_undefined env p :
  result (restartServer env p) <> Undefined
  /\ forall status, result (restartServer env p) = Exited status ->
                    status = 1 /\ In (Fork 0) (events (restartServer env p)).
Proof.
  split; [apply restartServer_never_undefined_aux|].
  start_run p env.
  run_cases_child; intros status H; try discriminate.
  all: unfold child_end in H; cbn [execlp_result] in H.
  all: repeat match goal with
       | H : context [match ?x with _ => _ end] |- _ => destruct x
       end; try discriminate.
  all: injection H as <-; split; [reflexivity|].
  all: subst; cbn [app In]; repeat rewrite List.in_app_iff; cbn [In]; tauto.
Qed.

(** X14: the constructor does not read the [serverNeedsRestart] that it
    has not set: what is in the field before makes no difference to the
    run. *)
Theorem construct_ignores_uninit env cmd log rails ruby w :
  construct env cmd log rails ruby true w
  = construct env cmd log rails ruby false w.
Proof.
  unfold construct. unfold_proc. reflexivity.
Qed.

(** *** [spawn] *)

Lemma spawn_restart_defined env p :
  result (spawn_restart env p) <> Undefined.
Proof.
  pose proof (restartServer_never_undefined_aux env p) as Hdef.
  unfold spawn_restart, bind, get, when, try_catch.
  destruct (serverNeedsRestart (this p)); [|discriminate].
  destruct (restartServer env p) as [o p1 evs1]. cbn [result] in *.
  destruct o as [u|e| | |]; cbn [result]; try discriminate; try congruence.
  destruct e; discriminate.
Qed.

(** X15: [spawn] runs into undefined behaviour exactly when the spawn
    server answers with a message that has no field ([args.front()] is
    then taken of an empty vector), or with a first field whose value no
    [int] holds ([atoi] has no defined result on it) where no more is
    known of the platform than the C standard says. *)
Theorem spawn_undefined_iff_no_pid env p appRoot user group :
  result (spawn env appRoot user group p) = Undefined
  <-> (exists c,
         In (ChannelRead c (inr (Some [])))
            (events (spawn env appRoot user group p)))
      \/ (exists c front rest,
            In (ChannelRead c (inr (Some (front :: rest))))
               (events (spawn env appRoot user group p))
            /\ Libc.atoi (Cxx.c_str front) = None
            /\ atoi_overflow env (Cxx.c_str front) = None).
Proof.
  pose proof (spawn_restart_defined env p) as Hdef.
  start_spawn env p; cbn [result] in Hdef; try congruence.
  all: run_cases.
  all: (split;
        [ intros H; try discriminate H
        | intros [[c H]|(c & front & rest & H & Ha & Ho)] ]);
       in_events; try discriminate; try reflexivity; try congruence.
  all: first
    [ solve [ left; eexists; apply in_or_app; right; cbn [In]; eauto ]
    | right; do 3 eexists;
      split; [apply in_or_app; right; cbn [In]; eauto
             | split; eassumption] ].
Qed.

(** X16: when [serverNeedsRestart] is [false], [spawn] goes straight to
    the exchange: the first call is the write of "spawn_application" and
    the C strings of the application root, the user and the group (what
    [c_str()] gives: the characters before a first NUL), in this order,
    on the channel that the object has, and no call other than those of
    the exchange is made: no socket pair, no fork, no wait. *)
Theorem spawn_unflagged_only_exchange env p appRoot user group :
  serverNeedsRestart (this p) = false ->
  exists rest,
    events (spawn env appRoot user group p)
    = ChannelWrite (channel (this p))
        ["spawn_application"; Cxx.c_str appRoot; Cxx.c_str user;
         Cxx.c_str group] (write_result env)
      :: rest
    /\ Forall (fun e => is_exchange e = true) rest.
Proof.
  destruct p as [[cmd lf envn ruby ch pd nr] w].
  destruct env as [sp fo fr fe om ex wr rd rfd ao].
  cbn [this serverNeedsRestart]. intros ->.
  unfold spawn, spawn_restart. unfold_proc.
  run_cases; cbn [app]; eexists; (split; [reflexivity|]);
    repeat constructor.
Qed.

Lemma spawn_unflagged_only_exchange_witness :
  exists rest,
    events (spawn env_ok "/app" "" "" running)
    = ChannelWrite (channel (this running))
        ["spawn_application"; "/app"; ""; ""] (write_result env_ok)
      :: rest
    /\ Forall (fun e => is_exchange e = true) rest.
Proof.
  apply (spawn_unflagged_only_exchange env_ok running "/app" "" "").
  reflexivity.
Defined.

(** X17: when [serverNeedsRestart] is [false] and [spawn] returns a
    handle, the object is as it was before the call, and the descriptors
    that are open are those that were, and the one of the handle. *)
Theorem spawn_unflagged_success_frame env p appRoot user group app :
  serverNeedsRestart (this p) = false ->
  result (spawn env appRoot user group p) = Returned app ->
  this (final (spawn env appRoot user group p)) = this p
  /\ open_fds (world (final (spawn env appRoot user group p)))
     = {[ Application.listenSocket app ]} ∪ open_fds (world p)
  /\ environ (world (final (spawn env appRoot user group p)))
     = environ (world p)
  /\ Application.appRoot app = appRoot.
Proof.
  destruct p as [[cmd lf envn ruby ch pd nr] w].
  destruct env as [sp fo fr fe om ex wr rd rfd ao].
  cbn [this serverNeedsRestart world]. intros ->.
  unfold spawn, spawn_restart. unfold_proc.
  run_cases; intros H; try discriminate.
  all: injection H as <-;
       cbn [Application.listenSocket Application.appRoot].
  all: repeat split.
Qed.

Lemma spawn_unflagged_success_frame_witness :
  this (final (spawn env_ok "/app" "" "" running)) = this running
  /\ open_fds (world (final (spawn env_ok "/app" "" "" running)))
     = {[ Application.listenSocket (Application.mk "/app" 4242 9) ]}
       ∪ open_fds (world running)
  /\ environ (world (final (spawn env_ok "/app" "" "" running)))
     = environ (world running)
  /\ Application.appRoot (Application.mk "/app" 4242 9) = "/app".
Proof.
  apply (spawn_unflagged_success_frame env_ok running "/app" "" "").
  - reflexivity.
  - vm_compute. reflexivity.
Defined.

(** X18: a call of [spawn] that finds [serverNeedsRestart] set, whose
    restart goes well and whose exchange goes well, with a first field
    on which [atoi] is defined, returns the handle as if nothing had been
    wrong: the spawn server that was tracked has been waited for, the
    request (the C strings of the arguments) went over the new channel,
    [pid] is the new child, and [serverNeedsRestart] is [false] again. *)
Theorem spawn_recovers env p appRoot user group fds0 fds1 front rest
    pid0 d :
  serverNeedsRestart (this p) = true ->
  socketpair_result env = inr (fds0, fds1) ->
  (nonempty (logFile (this p)) = true -> is_Some (fopen_result env)) ->
  fork_result env <> 0 ->
  fork_result env <> -1 ->
  write_result env = None ->
  read_result env = inr (Some (front :: rest)) ->
  Libc.atoi (Cxx.c_str front) = Some pid0 ->
  readFileDescriptor_result env = inr d ->
  result (spawn env appRoot user group p)
  = Returned (Application.mk appRoot pid0 d)
  /\ serverNeedsRestart (this (final (spawn env appRoot user group p)))
     = false
  /\ pid (this (final (spawn env appRoot user group p))) = fork_result env
  /\ channel (this (final (spawn env appRoot user group p)))
     = MessageChannel.bind fds0
  /\ In (ChannelWrite (MessageChannel.bind fds0)
           ["spawn_application"; Cxx.c_str appRoot; Cxx.c_str user;
            Cxx.c_str group] None)
        (events (spawn env appRoot user group p))
  /\ (pid (this p) <> 0 ->
      In (Waitpid (pid (this p)))
         (events (spawn env appRoot user group p))).
Proof.
  destruct p as [[cmd lf envn ruby ch pd nr] w].
  destruct env as [sp fo fr fe om ex wr rd rfd ao].
  cbn [this serverNeedsRestart logFile pid socketpair_result fopen_result
       fork_result write_result read_result readFileDescriptor_result].
  intros -> -> Hlog Hf0 Hf1 -> -> Ha ->.
  apply Z.eqb_neq in Hf0, Hf1.
  unfold spawn, spawn_restart. unfold_proc.
  rewrite Hf0, Hf1, Ha.
  destruct (nonempty lf) eqn:Hlf.
  1: destruct (Hlog eq_refl) as [h ->].
  all: run_cases; cbn [app In].
  all: repeat split; auto 12; try congruence.
Qed.

Lemma spawn_recovers_witness :
  result (spawn env_ok "/app" "" "" suspect)
  = Returned (Application.mk "/app" 4242 9)
  /\ serverNeedsRestart (this (final (spawn env_ok "/app" "" "" suspect)))
     = false
  /\ pid (this (final (spawn env_ok "/app" "" "" suspect)))
     = fork_result env_ok
  /\ channel (this (final (spawn env_ok "/app" "" "" suspect)))
     = MessageChannel.bind 5
  /\ In (ChannelWrite (MessageChannel.bind 5)
           ["spawn_application"; "/app"; ""; ""] None)
        (events (spawn env_ok "/app" "" "" suspect))
  /\ (pid (this suspect) <> 0 ->
      In (Waitpid (pid (this suspect)))
         (events (spawn env_ok "/app" "" "" suspect))).
Proof.
  apply (spawn_recovers env_ok suspect "/app" "" "" 5 6 "4242" [] 4242 9).
  - reflexivity.
  - reflexivity.
  - intros _. vm_compute. eauto.
  - vm_compute. discriminate.
  - vm_compute. discriminate.
  - reflexivity.
  - reflexivity.
  - vm_compute. reflexivity.
  - reflexivity.
Defined.



(** X20: the four strings of the configuration are never written:
    [restartServer], [spawn] and the destructor leave them as the
    constructor set them, however the call ends. *)
Theorem config_is_kept env p appRoot user group :
  config (this (final (restartServer env p))) = config (this p)
  /\ config (this (final (spawn env appRoot user group p)))
     = config (this p)
  /\ config (this (final (destroy p))) = config (this p).
Proof.
  assert (Hr : forall env p,
            config (this (final (restartServer env p))) = config (this p)).
  { clear. intros env p. start_run p env. run_cases; reflexivity. }
  split; [apply Hr|]. split.
  - unfold spawn, spawn_restart, bind, get, when, try_catch.
    specialize (Hr env p).
    destruct (serverNeedsRestart (this p)).
    + destruct (restartServer env p) as [o [s1 w1] evs1].
      cbn [final this] in Hr.
      destruct o as [u|e| | |]; cbn [final this]; try exact Hr.
      * destruct s1, env. unfold_proc. run_cases; exact Hr.
      * destruct e; exact Hr.
    + destruct p as [s1 w1]. cbn [ret this].
      destruct s1, env. unfold_proc. run_cases; reflexivity.
  - destruct p as [[? ? ? ? ? ? ?] ?]. unfold_proc. run_cases; reflexivity.
Qed.

Lemma spawn_undefined_iff_no_pid_witness :
  result (spawn env_empty_response "/app" "" "" running) = Undefined
  /\ result (spawn env_overflowing_pid "/app" "" "" running) = Undefined.
Proof.
  split.
  - apply (spawn_undefined_iff_no_pid env_empty_response running
             "/app" "" "").
    left. exists (MessageChannel.bind 5).
    vm_compute. right. left. reflexivity.
  - apply (spawn_undefined_iff_no_pid env_overflowing_pid running
             "/app" "" "").
    right. exists (MessageChannel.bind 5), "4294967297", [].
    split; [vm_compute; right; left; reflexivity|].
    split; vm_compute; reflexivity.
Defined.

(** X21: the destructor of an object that tracks a spawn server closes
    the descriptor of the channel, waits for the server, and returns; it
    throws nothing. *)
Theorem destroy_reaps p :
  pid (this p) <> 0 ->
  result (destroy p) = Returned tt
  /\ In (Waitpid (pid (this p))) (events (destroy p))
  /\ forall d,
       MessageChannel.fd (channel (this p)) = Some d ->
       In (ChannelClose d) (events (destroy p))
       /\ (d ∉ open_fds (world (final (destroy p)))).
Proof.
  destruct p as [[cmd lf envn ruby ch pd nr] w].
  cbn [this pid channel]. intros Hpid. apply Z.eqb_neq in Hpid.
  unfold_proc. rewrite Hpid.
  run_cases; cbn [app In].
  all: split; [reflexivity|]. 
  all: split; [auto|].
  all: intros d Hd; try discriminate Hd.
  injection Hd as <-. split; [auto | auto with fds].
Qed.

Lemma destroy_reaps_witness :
  result (destroy running) = Returned tt
  /\ In (Waitpid (pid (this running))) (events (destroy running))
  /\ forall d,
       MessageChannel.fd (channel (this running)) = Some d ->
       In (ChannelClose d) (events (destroy running))
       /\ (d ∉ open_fds (world (final (destroy running)))).
Proof.
  apply (destroy_reaps running). vm_compute. discriminate.
Defined.

(** X22: when [serverNeedsRestart] is [false] and [spawn] throws, the
    call has changed one thing in the object, the flag: [pid], the
    channel and the configuration are as before, and no descriptor was
    opened or closed. *)
Theorem spawn_unflagged_failure_frame env p appRoot user group e :
  serverNeedsRestart (this p) = false ->
  result (spawn env appRoot user group p) = Threw e ->
  this (final (spawn env appRoot user group p))
  = set_serverNeedsRestart true (this p)
  /\ world (final (spawn env appRoot user group p)) = world p.
Proof.
  destruct p as [[cmd lf envn ruby ch pd nr] w].
  destruct env as [sp fo fr fe om ex wr rd rfd ao].
  cbn [this serverNeedsRestart world]. intros ->.
  unfold spawn, spawn_restart. unfold_proc.
  run_cases; intros H; try discriminate.
  all: split; reflexivity.
Qed.

Lemma spawn_unflagged_failure_frame_witness :
  this (final (spawn env_server_gone "/app" "" "" running))
  = set_serverNeedsRestart true (this running)
  /\ world (final (spawn env_server_gone "/app" "" "" running))
     = world running.
Proof.
  apply (spawn_unflagged_failure_frame env_server_gone running "/app" "" ""
           (IOException "The spawn server has exited unexpectedly.")).
  - reflexivity.
  - vm_compute. reflexivity.
Defined.

End SpawnExtras.
